(** * prometheus-awair-exporter: the collector of [internal/exporter/exporter.go]

    A shallow embedding of the exporter (descriptors, [NewAwairExporter],
    [Describe], [GetMetrics], [GetConfig], [Collect]) together with models of
    the library calls it makes ([net/http], [encoding/json], [unicode/utf8],
    [strconv], [prometheus.MustNewConstMetric], [zerolog]), followed by the
    properties of the collector.

    Conventions.
    - A Go [string] or [[]byte] is a Rocq [string] (a sequence of bytes).
    - A Go [float64] is a [spec_float] of the binary64 format.
    - A Go [int] is a [Z] in the 64-bit signed range.
    - A pointer that may be [nil] is an [option]; dereferencing [None] panics.
    - A Go [(T, error)] result is a pair whose second component is
      [option error], [None] standing for [nil].

    The modules [utf8], [strconv], [json] and [prometheus] stand for
    packages the exporter imports. Their code is not part of the
    repository: each definition there follows the behaviour the package
    documents, on the inputs this program can give it. The module
    [exporter] follows the source file declaration by declaration. *)

From Stdlib Require Import ZArith NArith List String Ascii Bool Lia.
From Stdlib Require Import SpecFloat DecimalString.
Import ListNotations.

Local Open Scope string_scope.

Set Warnings "-register-all,-abstract-large-number".

Ltac Zify.zify_post_hook ::= Z.to_euclidean_division_equations.

(** ** Bytes and UTF-8 ([unicode/utf8]) *)

Module utf8.

Local Open Scope N_scope.

Definition rune := N.

Definition RuneError : rune := 0xFFFD.
Definition MaxRune : rune := 0x10FFFF.
Definition RuneSelf : N := 0x80.

Definition byte_of (n : N) : ascii := ascii_of_N n.
Definition code (c : ascii) : N := N_of_ascii c.

Definition between (lo hi x : N) : bool := (lo <=? x) && (x <=? hi).

(** A rune that [EncodeRune] writes as it is: in range and not a
    surrogate half. *)
Definition ValidRune (r : rune) : bool :=
  (r <? 0xD800) || (between 0xE000 MaxRune r).

(** The rune [EncodeRune] writes for [r]: [r] itself, or [RuneError] in
    the place of an invalid one. *)
Definition written (r : rune) : rune := if ValidRune r then r else RuneError.

(** [utf8.EncodeRune]: the bytes of [r]. *)
Definition EncodeRune (r : rune) : string :=
  let r := written r in
  if r <? 0x80 then String (byte_of r) ""
  else if r <? 0x800 then
    String (byte_of (0xC0 + r / 64))
      (String (byte_of (0x80 + r mod 64)) "")
  else if r <? 0x10000 then
    String (byte_of (0xE0 + r / 4096))
      (String (byte_of (0x80 + (r / 64) mod 64))
         (String (byte_of (0x80 + r mod 64)) ""))
  else
    String (byte_of (0xF0 + r / 262144))
      (String (byte_of (0x80 + (r / 4096) mod 64))
         (String (byte_of (0x80 + (r / 64) mod 64))
            (String (byte_of (0x80 + r mod 64)) ""))).

Definition cont (c : ascii) : bool := between 0x80 0xBF (code c).

(** The range allowed for the second byte after the leading byte [b0]
    (the [acceptRanges] table of the library). *)
Definition second_ok (b0 b1 : N) : bool :=
  if b0 =? 0xE0 then between 0xA0 0xBF b1
  else if b0 =? 0xED then between 0x80 0x9F b1
  else if b0 =? 0xF0 then between 0x90 0xBF b1
  else if b0 =? 0xF4 then between 0x80 0x8F b1
  else between 0x80 0xBF b1.

(** [utf8.DecodeRune]: the first rune of [s] and its width in bytes;
    [(RuneError, 0)] on the empty string and [(RuneError, 1)] on an
    encoding error. *)
Definition DecodeRune (s : string) : rune * nat :=
  match s with
  | "" => (RuneError, 0%nat)
  | String c0 t0 =>
    let b0 := code c0 in
    if b0 <? RuneSelf then (b0, 1%nat)
    else if between 0xC2 0xDF b0 then
      match t0 with
      | String c1 _ =>
        if cont c1 then ((b0 - 0xC0) * 64 + (code c1 - 0x80), 2%nat)
        else (RuneError, 1%nat)
      | _ => (RuneError, 1%nat)
      end
    else if between 0xE0 0xEF b0 then
      match t0 with
      | String c1 (String c2 _) =>
        if second_ok b0 (code c1) && cont c2 then
          ((b0 - 0xE0) * 4096 + (code c1 - 0x80) * 64 + (code c2 - 0x80),
           3%nat)
        else (RuneError, 1%nat)
      | _ => (RuneError, 1%nat)
      end
    else if between 0xF0 0xF4 b0 then
      match t0 with
      | String c1 (String c2 (String c3 _)) =>
        if second_ok b0 (code c1) && cont c2 && cont c3 then
          ((b0 - 0xF0) * 262144 + (code c1 - 0x80) * 4096
           + (code c2 - 0x80) * 64 + (code c3 - 0x80), 4%nat)
        else (RuneError, 1%nat)
      | _ => (RuneError, 1%nat)
      end
    else (RuneError, 1%nat)
  end.

(** [utf8.ValidString], as a loop over the bytes: [skip] counts the bytes
    of the current rune still to be passed over. *)
Fixpoint valid_from (skip : nat) (s : string) : bool :=
  match s with
  | "" => true
  | String _ t =>
    match skip with
    | S k => valid_from k t
    | O =>
      let '(r, size) := DecodeRune s in
      if (r =? RuneError) && Nat.eqb size 1 then false
      else valid_from (Nat.pred size) t
    end
  end.

Definition ValidString (s : string) : bool := valid_from 0 s.

(** Strings made of encoded runes only. *)
Inductive WellFormed : string -> Prop :=
| wf_empty : WellFormed ""
| wf_rune r s : WellFormed s -> WellFormed (EncodeRune r ++ s).

End utf8.

(** ** Errors

    The values of Go's [error] interface this program can see. *)
Inductive error :=
| UrlError (detail : string)    (* [*url.Error], from [http.Get] *)
| ReadError (detail : string)   (* from reading a response body *)
| SyntaxError                   (* [*json.SyntaxError] *)
| UnmarshalTypeError.           (* [*json.UnmarshalTypeError] *)

(** ** Decimal literals ([strconv]) *)

Module strconv.

Local Open Scope Z_scope.

Definition float64 := spec_float.
Definition prec : Z := 53.
Definition emax : Z := 1024.

(** The [float64] nearest to the integer [z] (ties to even). *)
Definition float64_of_Z (z : Z) : float64 :=
  binary_normalize prec emax z 0 false.

Definition isDigit (c : ascii) : bool := utf8.between 48 57 (utf8.code c).

Definition digit_val (c : ascii) : Z := Z.of_N (utf8.code c) - 48.

(** The value of a string of decimal digits. *)
Definition Z_of_digits (s : string) : Z :=
  fold_left (fun acc c => 10 * acc + digit_val c) (list_ascii_of_string s) 0.

(** A decimal literal: sign, integer digits, fraction digits (empty when
    the literal has no point), exponent (absent when the literal has none). *)
Record decimal := Decimal
  { d_neg : bool; d_int : string; d_frac : string; d_exp : option Z }.

(** [strconv.ParseFloat(s, 64)] on a decimal literal: the nearest
    [float64] to the literal's value, ties to even; [None] when the value
    is out of range (the library returns an infinity and [ErrRange]). *)
Definition ParseFloat (d : decimal) : option float64 :=
  let m := Z_of_digits (d_int d ++ d_frac d) in
  let e10 :=
    ((match d_exp d with Some e => e | None => 0 end)
     - Z.of_nat (String.length (d_frac d)))%Z in
  let f :=
    if 0 <=? e10 then
      match m * 10 ^ e10 with
      | Zpos p => binary_round prec emax (d_neg d) p 0
      | _ => S754_zero (d_neg d)
      end
    else if m =? 0 then S754_zero (d_neg d)
    else
      let '(q, e, l) := SFdiv_core_binary prec emax m 0 (10 ^ (- e10)) 0 in
      binary_round_aux prec emax (d_neg d) q e l in
  match f with
  | S754_infinity _ | S754_nan => None
  | _ => Some f
  end.

Definition minInt64 : Z := - 2 ^ 63.
Definition maxInt64 : Z := 2 ^ 63 - 1.

(** [strconv.ParseInt(s, 10, 64)] on a decimal literal: only a literal
    without fraction and exponent is an integer; [None] on a syntax or
    range error. *)
Definition ParseInt (d : decimal) : option Z :=
  match d_frac d, d_exp d with
  | "", None =>
    let m := Z_of_digits (d_int d) in
    let v := if d_neg d then (- m)%Z else m in
    if ((minInt64 <=? v) && (v <=? maxInt64))%Z then Some v else None
  | _, _ => None
  end.

(** [strconv.Itoa]. *)
Definition Itoa (i : Z) : string := NilZero.string_of_int (Z.to_int i).

End strconv.

(** ** JSON texts ([encoding/json]: scanner and literal decoding) *)

Module json.

Import utf8 strconv.
Local Open Scope N_scope.

Inductive token :=
| TLBrace | TRBrace | TLBracket | TRBracket | TColon | TComma
| TString (s : string)
| TNumber (d : decimal)
| TTrue | TFalse | TNull.

Definition isSpace (c : ascii) : bool :=
  let b := code c in (b =? 32) || (b =? 9) || (b =? 13) || (b =? 10).

Definition hex_val (c : ascii) : option N :=
  let b := code c in
  if between 48 57 b then Some (b - 48)
  else if between 97 102 b then Some (b - 87)
  else if between 65 70 b then Some (b - 55)
  else None.

(** [getu4] on the four characters after a backslash and [u]. *)
Definition getu4 (h1 h2 h3 h4 : ascii) : option rune :=
  match hex_val h1, hex_val h2, hex_val h3, hex_val h4 with
  | Some a, Some b, Some c, Some d => Some (a * 4096 + b * 256 + c * 16 + d)
  | _, _, _, _ => None
  end.

(** [utf16.IsSurrogate] and [utf16.DecodeRune]. *)
Definition IsSurrogate (r : rune) : bool := between 0xD800 0xDFFF r.

Definition utf16_DecodeRune (r1 r2 : rune) : rune :=
  if between 0xD800 0xDBFF r1 && between 0xDC00 0xDFFF r2
  then (r1 - 0xD800) * 1024 + (r2 - 0xDC00) + 0x10000
  else RuneError.

(** What stands at the head of the rest of a string literal: its closing
    quote, or [width] bytes of the text that decode to the bytes [out], or
    something no literal may contain. *)
Inductive piece := Close | Emit (out : string) (width : nat) | Bad.

(** The second half [\uXXXX] of a surrogate pair starting at [s]. *)
Definition getu4_at (s : string) : option rune :=
  match s with
  | String b (String u (String g1 (String g2 (String g3 (String g4 _))))) =>
    if (code b =? 92) && (code u =? 117) then getu4 g1 g2 g3 g4 else None
  | _ => None
  end.

Definition escape_piece (t : string) : piece :=
  match t with
  | "" => Bad
  | String e t1 =>
    let b := code e in
    if (b =? 34) || (b =? 92) || (b =? 47) then Emit (String e "") 2
    else if b =? 98 then Emit (String (byte_of 8) "") 2
    else if b =? 102 then Emit (String (byte_of 12) "") 2
    else if b =? 110 then Emit (String (byte_of 10) "") 2
    else if b =? 114 then Emit (String (byte_of 13) "") 2
    else if b =? 116 then Emit (String (byte_of 9) "") 2
    else if b =? 117 then
      match t1 with
      | String h1 (String h2 (String h3 (String h4 t2))) =>
        match getu4 h1 h2 h3 h4 with
        | None => Bad
        | Some rr =>
          if IsSurrogate rr then
            match getu4_at t2 with
            | Some rr1 =>
              let dec := utf16_DecodeRune rr rr1 in
              if dec =? RuneError then Emit (EncodeRune RuneError) 6
              else Emit (EncodeRune dec) 12
            | None => Emit (EncodeRune RuneError) 6
            end
          else Emit (EncodeRune rr) 6
        end
      | _ => Bad
      end
    else Bad
  end.

(** One step of [unquote]: escapes are replaced, a byte sequence that is
    not UTF-8 is coerced to the replacement rune. *)
Definition string_piece (s : string) : piece :=
  match s with
  | "" => Bad
  | String c t =>
    let b := code c in
    if b =? 34 then Close
    else if b =? 92 then escape_piece t
    else if b <? 32 then Bad
    else if b <? RuneSelf then Emit (String c "") 1
    else let '(r, size) := DecodeRune s in Emit (EncodeRune r) size
  end.

(** The string literal whose opening quote has been read: its decoded
    contents and the number of bytes up to and including the closing
    quote, added to [n]. *)
Fixpoint lex_string (skip : nat) (s acc : string) (n : nat)
  : option (string * nat) :=
  match s with
  | "" => None
  | String _ t =>
    match skip with
    | S k => lex_string k t acc (S n)
    | O =>
      match string_piece s with
      | Close => Some (acc, S n)
      | Emit out w => lex_string (Nat.pred w) t (acc ++ out) (S n)
      | Bad => None
      end
    end
  end.

(** The longest prefix of decimal digits, and what follows it. *)
Fixpoint span_digits (s : string) : string * string :=
  match s with
  | "" => ("", "")
  | String c t =>
    if isDigit c then let '(ds, r) := span_digits t in (String c ds, r)
    else ("", s)
  end.

Definition lex_int (s : string) : option (string * string) :=
  match s with
  | "" => None
  | String c t =>
    if code c =? 48 then Some ("0"%string, t)
    else if isDigit c then Some (span_digits s)
    else None
  end.

Definition lex_frac (s : string) : option (string * string) :=
  match s with
  | String c t =>
    if code c =? 46 then
      match span_digits t with
      | (""%string, _) => None
      | (ds, r) => Some (ds, r)
      end
    else Some (""%string, s)
  | "" => Some (""%string, s)
  end.

Definition lex_exp (s : string) : option (option Z * string) :=
  match s with
  | String c t =>
    if (code c =? 101) || (code c =? 69) then
      let '(neg, t') :=
        match t with
        | String sg u =>
          if code sg =? 43 then (false, u)
          else if code sg =? 45 then (true, u)
          else (false, t)
        | "" => (false, t)
        end in
      match span_digits t' with
      | (""%string, _) => None
      | (ds, r) =>
        Some (Some (if neg then (- Z_of_digits ds)%Z else Z_of_digits ds), r)
      end
    else Some (None, s)
  | "" => Some (None, s)
  end.

(** A number literal at the head of [s], and its width. *)
Definition lex_number (s : string) : option (decimal * nat) :=
  let '(neg, s1) :=
    match s with
    | String c t => if code c =? 45 then (true, t) else (false, s)
    | "" => (false, s)
    end in
  match lex_int s1 with
  | None => None
  | Some (i, s2) =>
    match lex_frac s2 with
    | None => None
    | Some (f, s3) =>
      match lex_exp s3 with
      | None => None
      | Some (e, s4) =>
        Some (Decimal neg i f e, (String.length s - String.length s4)%nat)
      end
    end
  end.

Definition lex_word (w : string) (tok : token) (s : string)
  : option (token * nat) :=
  if prefix w s then Some (tok, String.length w) else None.

(** The token at the head of [s] (which does not start with white space)
    and its width in bytes. *)
Definition lex1 (s : string) : option (token * nat) :=
  match s with
  | "" => None
  | String c t =>
    let b := code c in
    if b =? 123 then Some (TLBrace, 1%nat)
    else if b =? 125 then Some (TRBrace, 1%nat)
    else if b =? 91 then Some (TLBracket, 1%nat)
    else if b =? 93 then Some (TRBracket, 1%nat)
    else if b =? 58 then Some (TColon, 1%nat)
    else if b =? 44 then Some (TComma, 1%nat)
    else if b =? 34 then
      match lex_string 0 t "" 1 with
      | Some (str, n) => Some (TString str, n)
      | None => None
      end
    else if (b =? 45) || isDigit c then
      match lex_number s with
      | Some (d, n) => Some (TNumber d, n)
      | None => None
      end
    else if b =? 116 then lex_word "true" TTrue s
    else if b =? 102 then lex_word "false" TFalse s
    else if b =? 110 then lex_word "null" TNull s
    else None
  end.

(** The tokens of a text; [None] when some byte starts no token. *)
Fixpoint tokenize (skip : nat) (s : string) : option (list token) :=
  match s with
  | "" => Some []
  | String c t =>
    match skip with
    | S k => tokenize k t
    | O =>
      if isSpace c then tokenize 0 t
      else
        match lex1 s with
        | Some (tok, n) =>
          match tokenize (Nat.pred n) t with
          | Some toks => Some (tok :: toks)
          | None => None
          end
        | None => None
        end
    end
  end.

(** A JSON value. A number keeps its literal; the members of an object
    keep their order and their duplicates. *)
Inductive value :=
| Null
| Bool (b : bool)
| Number (d : decimal)
| Str (s : string)
| Array (elems : list value)
| Object (members : list (string * value)).

(** The scanner's stack of open arrays and objects: what each has
    collected so far (latest first), and for an object the key that waits
    for its value. *)
Inductive frame :=
| FArray (elems : list value)
| FObject (members : list (string * value)) (key : option string).

Inductive mode :=
| BeginValue           (* a value starts here *)
| BeginArray           (* after an opening bracket: a value or the end *)
| BeginObject          (* after an opening brace: a key or the end *)
| ObjectKey            (* after a comma in an object: a key *)
| ObjectColon          (* after a key: the colon *)
| EndValue             (* after a value in an array or object *)
| EndTop (v : value).  (* after the top-level value *)

Definition maxNestingDepth : nat := 10000.

Definition pstate : Type := list frame * mode.

(** A finished value goes to the innermost open array or object. *)
Definition close_value (stk : list frame) (v : value) : option pstate :=
  match stk with
  | [] => Some ([], EndTop v)
  | FArray es :: stk' => Some (FArray (v :: es) :: stk', EndValue)
  | FObject ms (Some k) :: stk' =>
    Some (FObject ((k, v) :: ms) None :: stk', EndValue)
  | FObject _ None :: _ => None
  end.

Definition open_frame (stk : list frame) (f : frame) (m : mode)
  : option pstate :=
  if (maxNestingDepth <? List.length (f :: stk))%nat then None
  else Some (f :: stk, m).

Definition begin_value (stk : list frame) (t : token) : option pstate :=
  match t with
  | TLBrace => open_frame stk (FObject [] None) BeginObject
  | TLBracket => open_frame stk (FArray []) BeginArray
  | TString s => close_value stk (Str s)
  | TNumber d => close_value stk (Number d)
  | TTrue => close_value stk (Bool true)
  | TFalse => close_value stk (Bool false)
  | TNull => close_value stk Null
  | TRBrace | TRBracket | TColon | TComma => None
  end.

Definition set_key (stk : list frame) (k : string) : option pstate :=
  match stk with
  | FObject ms None :: stk' => Some (FObject ms (Some k) :: stk', ObjectColon)
  | _ => None
  end.

Definition close_array (stk : list frame) : option pstate :=
  match stk with
  | FArray es :: stk' => close_value stk' (Array (rev es))
  | _ => None
  end.

Definition close_object (stk : list frame) : option pstate :=
  match stk with
  | FObject ms None :: stk' => close_value stk' (Object (rev ms))
  | _ => None
  end.

Definition step (st : pstate) (t : token) : option pstate :=
  let '(stk, m) := st in
  match m, t with
  | BeginValue, _ => begin_value stk t
  | BeginArray, TRBracket => close_array stk
  | BeginArray, _ => begin_value stk t
  | BeginObject, TRBrace => close_object stk
  | BeginObject, TString k => set_key stk k
  | ObjectKey, TString k => set_key stk k
  | ObjectColon, TColon => Some (stk, BeginValue)
  | EndValue, TComma =>
    match stk with
    | FArray _ :: _ => Some (stk, BeginValue)
    | FObject _ None :: _ => Some (stk, ObjectKey)
    | _ => None
    end
  | EndValue, TRBracket => close_array stk
  | EndValue, TRBrace => close_object stk
  | _, _ => None
  end.

Fixpoint steps (st : pstate) (ts : list token) : option pstate :=
  match ts with
  | [] => Some st
  | t :: ts' =>
    match step st t with
    | Some st' => steps st' ts'
    | None => None
    end
  end.

(** The value a text denotes; [None] is a [*json.SyntaxError]. *)
Definition parse (data : string) : option value :=
  match tokenize 0 data with
  | None => None
  | Some ts =>
    match steps ([], BeginValue) ts with
    | Some ([], EndTop v) => Some v
    | _ => None
    end
  end.

(** *** Matching an object key with a field name

    A key selects the field whose name it equals under simple case
    folding. The names of this program are ASCII; the only runes outside
    ASCII that fold to an ASCII letter are the Kelvin sign (to [K]) and
    the long s (to [S]). *)
Definition upper (b : N) : N := if between 97 122 b then b - 32 else b.

Definition fold_piece (s : string) : option (ascii * nat) :=
  match s with
  | "" => None
  | String c _ =>
    if code c <? RuneSelf then Some (byte_of (upper (code c)), 1%nat)
    else
      let '(r, size) := DecodeRune s in
      if r =? 0x212A then Some (byte_of 75, size)
      else if r =? 0x17F then Some (byte_of 83, size)
      else None
  end.

(** The folded form of [s]; [None] when [s] has a rune that folds to no
    ASCII character. *)
Fixpoint foldName (skip : nat) (s : string) : option string :=
  match s with
  | "" => Some ""%string
  | String _ t =>
    match skip with
    | S k => foldName k t
    | O =>
      match fold_piece s with
      | Some (c, w) =>
        match foldName (Nat.pred w) t with
        | Some r => Some (String c r)
        | None => None
        end
      | None => None
      end
    end
  end.

Definition key_matches (name key : string) : bool :=
  match foldName 0 name, foldName 0 key with
  | Some a, Some b => String.eqb a b
  | _, _ => false
  end.

(** *** Decoding a value into a struct

    What a JSON value does to a field: it is stored, or (for [null]) the
    field keeps its value, or the value has the wrong type for the field. *)
Inductive assign (A : Type) := Store (a : A) | Keep | Mismatch.
Arguments Store {A} a.
Arguments Keep {A}.
Arguments Mismatch {A}.

Definition as_float64 (v : value) : assign float64 :=
  match v with
  | Null => Keep
  | Number d =>
    match ParseFloat d with Some f => Store f | None => Mismatch end
  | _ => Mismatch
  end.

Definition as_int (v : value) : assign Z :=
  match v with
  | Null => Keep
  | Number d =>
    match ParseInt d with Some i => Store i | None => Mismatch end
  | _ => Mismatch
  end.

Definition as_string (v : value) : assign string :=
  match v with
  | Null => Keep
  | Str s => Store s
  | _ => Mismatch
  end.

(** A decoder takes the value and the struct as it stands, and gives the
    struct as it is afterwards and the error it saved, if any. *)
Definition decoder (T : Type) : Type := value -> T -> T * option error.

Definition into {A T : Type} (conv : value -> assign A) (set : A -> T -> T)
  : decoder T :=
  fun v t =>
    match conv v with
    | Store a => (set a t, None)
    | Keep => (t, None)
    | Mismatch => (t, Some UnmarshalTypeError)
    end.

(** The fields of a struct: JSON name and decoder, in declaration order. *)
Definition fields (T : Type) : Type := list (string * decoder T).

Fixpoint find_field {T : Type} (fs : fields T) (key : string)
  : option (decoder T) :=
  match fs with
  | [] => None
  | (name, d) :: fs' =>
    if key_matches name key then Some d else find_field fs' key
  end.

Definition first_error (a b : option error) : option error :=
  match a with Some _ => a | None => b end.

(** The members are decoded in order; a key that names no field is
    skipped; after a type error decoding goes on, and the first error is
    the one reported. *)
Fixpoint decode_members {T : Type} (fs : fields T)
  (ms : list (string * value)) (t : T) : T * option error :=
  match ms with
  | [] => (t, None)
  | (k, v) :: ms' =>
    let '(t1, e1) :=
      match find_field fs k with
      | Some d => d v t
      | None => (t, None)
      end in
    let '(t2, e2) := decode_members fs ms' t1 in
    (t2, first_error e1 e2)
  end.

Definition decode_struct {T : Type} (fs : fields T) : decoder T :=
  fun v t =>
    match v with
    | Object ms => decode_members fs ms t
    | Null => (t, None)
    | _ => (t, Some UnmarshalTypeError)
    end.

(** [json.Unmarshal(data, &t)] for a struct with the fields [fs]. *)
Definition Unmarshal {T : Type} (fs : fields T) (data : string) (t : T)
  : T * option error :=
  match parse data with
  | None => (t, Some SyntaxError)
  | Some v => decode_struct fs v t
  end.

End json.

(** ** Descriptors and constant metrics ([prometheus]) *)

Module prometheus.

Import utf8 strconv.
Local Open Scope N_scope.

Definition BuildFQName (namespace subsystem name : string) : string :=
  if String.eqb name "" then ""%string
  else
    ((if String.eqb namespace "" then "" else namespace ++ "_")
     ++ (if String.eqb subsystem "" then "" else subsystem ++ "_")
     ++ name)%string.

Definition isLetter (b : N) : bool :=
  between 97 122 b || between 65 90 b || (b =? 95).

Definition isNameChar (colon : bool) (c : ascii) : bool :=
  let b := code c in
  isLetter b || between 48 57 b || (colon && (b =? 58)).

Definition isNameStart (colon : bool) (c : ascii) : bool :=
  let b := code c in isLetter b || (colon && (b =? 58)).

(** A metric name ([colon] allowed) or a label name (no colon). *)
Definition valid_name (colon : bool) (s : string) : bool :=
  match s with
  | "" => false
  | String c t =>
    isNameStart colon c && forallb (isNameChar colon) (list_ascii_of_string t)
  end.

Definition checkLabelName (l : string) : bool :=
  valid_name false l && negb (prefix "__" l).

Fixpoint has_duplicates (l : list string) : bool :=
  match l with
  | [] => false
  | x :: l' => existsb (String.eqb x) l' || has_duplicates l'
  end.

Record Desc := {
  fqName : string;
  help : string;
  variableLabels : list string;
  err : option string
}.

(** [prometheus.NewDesc] without constant labels: the descriptor carries
    an error when its name, its help or its label names are refused. *)
Definition NewDesc (fqName help : string) (variableLabels : list string)
  : Desc :=
  {| fqName := fqName;
     help := help;
     variableLabels := variableLabels;
     err :=
       if String.eqb help "" then Some "empty help string"%string
       else if negb (valid_name true fqName)
       then Some "not a valid metric name"%string
       else if negb (forallb checkLabelName variableLabels)
       then Some "not a valid label name"%string
       else if has_duplicates variableLabels
       then Some "duplicate label names"%string
       else None |}.

Inductive ValueType := CounterValue | GaugeValue | UntypedValue.

Record Metric := {
  desc : Desc;
  valueType : ValueType;
  value : float64;
  labelValues : list string
}.

(** The label pairs a metric is exposed with (the label names of this
    program are already in the sorted order the library keeps them in). *)
Definition labelPairs (m : Metric) : list (string * string) :=
  combine (variableLabels (desc m)) (labelValues m).

(** A run-time panic. *)
Inductive panic :=
| NilDereference
| MustPanic (reason : string).

Definition validateLabelValues (vals : list string) (expected : nat)
  : option string :=
  if negb (Nat.eqb (List.length vals) expected)
  then Some "inconsistent label cardinality"%string
  else if negb (forallb ValidString vals)
  then Some "label value is not valid UTF-8"%string
  else None.

(** [prometheus.MustNewConstMetric]: the metric, or the panic raised when
    [NewConstMetric] returns an error. *)
Definition MustNewConstMetric (d : Desc) (vt : ValueType) (v : float64)
  (labelValues : list string) : panic + Metric :=
  match err d with
  | Some e => inl (MustPanic e)
  | None =>
    match validateLabelValues labelValues (List.length (variableLabels d)) with
    | Some e => inl (MustPanic e)
    | None =>
      inr {| desc := d; valueType := vt; value := v;
             labelValues := labelValues |}
    end
  end.

End prometheus.

(** ** The exporter ([internal/exporter/exporter.go]) *)

Module exporter.

Import utf8 strconv json prometheus.

(** *** Metric descriptors (the package-level [var] block) *)
Definition score : Desc :=
  NewDesc (BuildFQName "awair" "" "score")
    "Awair Score (0-100)"
    ["device_uuid"].
Definition dew_point : Desc :=
  NewDesc (BuildFQName "awair" "" "dew_point")
    "The temperature at which water will condense and form into dew (ºC)"
    ["device_uuid"].
Definition temp : Desc :=
  NewDesc (BuildFQName "awair" "" "temp")
    "Dry bulb temperature (ºC)"
    ["device_uuid"].
Definition humidity : Desc :=
  NewDesc (BuildFQName "awair" "" "humidity")
    "Relative Humidity (%)"
    ["device_uuid"].
Definition abs_humidity : Desc :=
  NewDesc (BuildFQName "awair" "" "absolute_humidity")
    "Absolute Humidity (g/m³)"
    ["device_uuid"].
Definition co2 : Desc :=
  NewDesc (BuildFQName "awair" "" "co2")
    "Carbon Dioxide (ppm)"
    ["device_uuid"].
Definition co2_estimated : Desc :=
  NewDesc (BuildFQName "awair" "" "co2_est")
    "Estimated Carbon Dioxide (ppm - calculated by the TVOC sensor)"
    ["device_uuid"].
Definition co2_estimate_baseline : Desc :=
  NewDesc (BuildFQName "awair" "" "co2_est_baseline")
    "A unitless value that represents the baseline from which the TVOC sensor partially derives its estimated (e)CO₂output."
    ["device_uuid"].
Definition voc : Desc :=
  NewDesc (BuildFQName "awair" "" "voc")
    "Total Volatile Organic Compounds (ppb)"
    ["device_uuid"].
Definition voc_baseline : Desc :=
  NewDesc (BuildFQName "awair" "" "voc_baseline")
    "A unitless value that represents the baseline from which the TVOC sensor partially derives its TVOC output."
    ["device_uuid"].
Definition voc_h2_raw : Desc :=
  NewDesc (BuildFQName "awair" "" "voc_h2_raw")
    "A unitless value that represents the Hydrogen gas signal from which the TVOC sensor partially derives its TVOC output."
    ["device_uuid"].
Definition voc_ethanol_raw : Desc :=
  NewDesc (BuildFQName "awair" "" "voc_ethanol_raw")
    "A unitless value that represents the Ethanol gas signal from which the TVOC sensor partially derives its TVOC output."
    ["device_uuid"].
Definition pm25 : Desc :=
  NewDesc (BuildFQName "awair" "" "pm25")
    "Particulate matter less than 2.5 microns in diameter (µg/m³)"
    ["device_uuid"].
Definition pm10 : Desc :=
  NewDesc (BuildFQName "awair" "" "pm10")
    "Estimated particulate matter less than 10 microns in diameter (µg/m³ - calculated by the PM2.5 sensor)"
    ["device_uuid"].
Definition info : Desc :=
  NewDesc (BuildFQName "awair" "" "device_info")
    "Info about the awair device"
    ["device_uuid"; "firmware_version"; "voc_feature_set"].

(** *** The structs *)

Record AwairValues := {
  Score : float64;
  DewPoint : float64;
  Temp : float64;
  Humidity : float64;
  AbsHumidity : float64;
  CO2 : float64;
  CO2Est : float64;
  CO2EstBaseline : float64;
  Voc : float64;
  VocBaseline : float64;
  VocH2Raw : float64;
  VocEthanolRaw : float64;
  PM25 : float64;
  PM10Est : float64
}.

Record LEDSettings := {
  Mode : string;
  Brightness : Z
}.

Record ConfigResponse := {
  DeviceUUID : string;
  WifiMAC : string;
  SSID : string;
  IP : string;
  Netmask : string;
  Gateway : string;
  FirmwareVersion : string;
  Timezone : string;
  Display : string;
  LED : LEDSettings;
  VocFeatureSet : Z
}.

Record AwairExporter := {
  hostname : string
}.

(** The zero values of the structs ([AwairValues{}], [ConfigResponse{}]). *)
Definition zero_float64 : float64 := S754_zero false.

Definition zero_AwairValues : AwairValues :=
  {| Score := zero_float64;
     DewPoint := zero_float64;
     Temp := zero_float64;
     Humidity := zero_float64;
     AbsHumidity := zero_float64;
     CO2 := zero_float64;
     CO2Est := zero_float64;
     CO2EstBaseline := zero_float64;
     Voc := zero_float64;
     VocBaseline := zero_float64;
     VocH2Raw := zero_float64;
     VocEthanolRaw := zero_float64;
     PM25 := zero_float64;
     PM10Est := zero_float64 |}.

Definition zero_LEDSettings : LEDSettings := {| Mode := ""; Brightness := 0 |}.

Definition zero_ConfigResponse : ConfigResponse :=
  {| DeviceUUID := "";
     WifiMAC := "";
     SSID := "";
     IP := "";
     Netmask := "";
     Gateway := "";
     FirmwareVersion := "";
     Timezone := "";
     Display := "";
     LED := zero_LEDSettings;
     VocFeatureSet := 0 |}.

(** *** Field assignment *)
Definition set_Score (x : float64) (r : AwairValues) : AwairValues :=
  {| Score := x;
     DewPoint := DewPoint r;
     Temp := Temp r;
     Humidity := Humidity r;
     AbsHumidity := AbsHumidity r;
     CO2 := CO2 r;
     CO2Est := CO2Est r;
     CO2EstBaseline := CO2EstBaseline r;
     Voc := Voc r;
     VocBaseline := VocBaseline r;
     VocH2Raw := VocH2Raw r;
     VocEthanolRaw := VocEthanolRaw r;
     PM25 := PM25 r;
     PM10Est := PM10Est r |}.

Definition set_DewPoint (x : float64) (r : AwairValues) : AwairValues :=
  {| Score := Score r;
     DewPoint := x;
     Temp := Temp r;
     Humidity := Humidity r;
     AbsHumidity := AbsHumidity r;
     CO2 := CO2 r;
     CO2Est := CO2Est r;
     CO2EstBaseline := CO2EstBaseline r;
     Voc := Voc r;
     VocBaseline := VocBaseline r;
     VocH2Raw := VocH2Raw r;
     VocEthanolRaw := VocEthanolRaw r;
     PM25 := PM25 r;
     PM10Est := PM10Est r |}.

Definition set_Temp (x : float64) (r : AwairValues) : AwairValues :=
  {| Score := Score r;
     DewPoint := DewPoint r;
     Temp := x;
     Humidity := Humidity r;
     AbsHumidity := AbsHumidity r;
     CO2 := CO2 r;
     CO2Est := CO2Est r;
     CO2EstBaseline := CO2EstBaseline r;
     Voc := Voc r;
     VocBaseline := VocBaseline r;
     VocH2Raw := VocH2Raw r;
     VocEthanolRaw := VocEthanolRaw r;
     PM25 := PM25 r;
     PM10Est := PM10Est r |}.

Definition set_Humidity (x : float64) (r : AwairValues) : AwairValues :=
  {| Score := Score r;
     DewPoint := DewPoint r;
     Temp := Temp r;
     Humidity := x;
     AbsHumidity := AbsHumidity r;
     CO2 := CO2 r;
     CO2Est := CO2Est r;
     CO2EstBaseline := CO2EstBaseline r;
     Voc := Voc r;
     VocBaseline := VocBaseline r;
     VocH2Raw := VocH2Raw r;
     VocEthanolRaw := VocEthanolRaw r;
     PM25 := PM25 r;
     PM10Est := PM10Est r |}.

Definition set_AbsHumidity (x : float64) (r : AwairValues) : AwairValues :=
  {| Score := Score r;
     DewPoint := DewPoint r;
     Temp := Temp r;
     Humidity := Humidity r;
     AbsHumidity := x;
     CO2 := CO2 r;
     CO2Est := CO2Est r;
     CO2EstBaseline := CO2EstBaseline r;
     Voc := Voc r;
     VocBaseline := VocBaseline r;
     VocH2Raw := VocH2Raw r;
     VocEthanolRaw := VocEthanolRaw r;
     PM25 := PM25 r;
     PM10Est := PM10Est r |}.

Definition set_CO2 (x : float64) (r : AwairValues) : AwairValues :=
  {| Score := Score r;
     DewPoint := DewPoint r;
     Temp := Temp r;
     Humidity := Humidity r;
     AbsHumidity := AbsHumidity r;
     CO2 := x;
     CO2Est := CO2Est r;
     CO2EstBaseline := CO2EstBaseline r;
     Voc := Voc r;
     VocBaseline := VocBaseline r;
     VocH2Raw := VocH2Raw r;
     VocEthanolRaw := VocEthanolRaw r;
     PM25 := PM25 r;
     PM10Est := PM10Est r |}.

Definition set_CO2Est (x : float64) (r : AwairValues) : AwairValues :=
  {| Score := Score r;
     DewPoint := DewPoint r;
     Temp := Temp r;
     Humidity := Humidity r;
     AbsHumidity := AbsHumidity r;
     CO2 := CO2 r;
     CO2Est := x;
     CO2EstBaseline := CO2EstBaseline r;
     Voc := Voc r;
     VocBaseline := VocBaseline r;
     VocH2Raw := VocH2Raw r;
     VocEthanolRaw := VocEthanolRaw r;
     PM25 := PM25 r;
     PM10Est := PM10Est r |}.

Definition set_CO2EstBaseline (x : float64) (r : AwairValues) : AwairValues :=
  {| Score := Score r;
     DewPoint := DewPoint r;
     Temp := Temp r;
     Humidity := Humidity r;
     AbsHumidity := AbsHumidity r;
     CO2 := CO2 r;
     CO2Est := CO2Est r;
     CO2EstBaseline := x;
     Voc := Voc r;
     VocBaseline := VocBaseline r;
     VocH2Raw := VocH2Raw r;
     VocEthanolRaw := VocEthanolRaw r;
     PM25 := PM25 r;
     PM10Est := PM10Est r |}.

Definition set_Voc (x : float64) (r : AwairValues) : AwairValues :=
  {| Score := Score r;
     DewPoint := DewPoint r;
     Temp := Temp r;
     Humidity := Humidity r;
     AbsHumidity := AbsHumidity r;
     CO2 := CO2 r;
     CO2Est := CO2Est r;
     CO2EstBaseline := CO2EstBaseline r;
     Voc := x;
     VocBaseline := VocBaseline r;
     VocH2Raw := VocH2Raw r;
     VocEthanolRaw := VocEthanolRaw r;
     PM25 := PM25 r;
     PM10Est := PM10Est r |}.

Definition set_VocBaseline (x : float64) (r : AwairValues) : AwairValues :=
  {| Score := Score r;
     DewPoint := DewPoint r;
     Temp := Temp r;
     Humidity := Humidity r;
     AbsHumidity := AbsHumidity r;
     CO2 := CO2 r;
     CO2Est := CO2Est r;
     CO2EstBaseline := CO2EstBaseline r;
     Voc := Voc r;
     VocBaseline := x;
     VocH2Raw := VocH2Raw r;
     VocEthanolRaw := VocEthanolRaw r;
     PM25 := PM25 r;
     PM10Est := PM10Est r |}.

Definition set_VocH2Raw (x : float64) (r : AwairValues) : AwairValues :=
  {| Score := Score r;
     DewPoint := DewPoint r;
     Temp := Temp r;
     Humidity := Humidity r;
     AbsHumidity := AbsHumidity r;
     CO2 := CO2 r;
     CO2Est := CO2Est r;
     CO2EstBaseline := CO2EstBaseline r;
     Voc := Voc r;
     VocBaseline := VocBaseline r;
     VocH2Raw := x;
     VocEthanolRaw := VocEthanolRaw r;
     PM25 := PM25 r;
     PM10Est := PM10Est r |}.

Definition set_VocEthanolRaw (x : float64) (r : AwairValues) : AwairValues :=
  {| Score := Score r;
     DewPoint := DewPoint r;
     Temp := Temp r;
     Humidity := Humidity r;
     AbsHumidity := AbsHumidity r;
     CO2 := CO2 r;
     CO2Est := CO2Est r;
     CO2EstBaseline := CO2EstBaseline r;
     Voc := Voc r;
     VocBaseline := VocBaseline r;
     VocH2Raw := VocH2Raw r;
     VocEthanolRaw := x;
     PM25 := PM25 r;
     PM10Est := PM10Est r |}.

Definition set_PM25 (x : float64) (r : AwairValues) : AwairValues :=
  {| Score := Score r;
     DewPoint := DewPoint r;
     Temp := Temp r;
     Humidity := Humidity r;
     AbsHumidity := AbsHumidity r;
     CO2 := CO2 r;
     CO2Est := CO2Est r;
     CO2EstBaseline := CO2EstBaseline r;
     Voc := Voc r;
     VocBaseline := VocBaseline r;
     VocH2Raw := VocH2Raw r;
     VocEthanolRaw := VocEthanolRaw r;
     PM25 := x;
     PM10Est := PM10Est r |}.

Definition set_PM10Est (x : float64) (r : AwairValues) : AwairValues :=
  {| Score := Score r;
     DewPoint := DewPoint r;
     Temp := Temp r;
     Humidity := Humidity r;
     AbsHumidity := AbsHumidity r;
     CO2 := CO2 r;
     CO2Est := CO2Est r;
     CO2EstBaseline := CO2EstBaseline r;
     Voc := Voc r;
     VocBaseline := VocBaseline r;
     VocH2Raw := VocH2Raw r;
     VocEthanolRaw := VocEthanolRaw r;
     PM25 := PM25 r;
     PM10Est := x |}.
Definition set_Mode (x : string) (r : LEDSettings) : LEDSettings :=
  {| Mode := x;
     Brightness := Brightness r |}.

Definition set_Brightness (x : Z) (r : LEDSettings) : LEDSettings :=
  {| Mode := Mode r;
     Brightness := x |}.
Definition set_DeviceUUID (x : string) (r : ConfigResponse) : ConfigResponse :=
  {| DeviceUUID := x;
     WifiMAC := WifiMAC r;
     SSID := SSID r;
     IP := IP r;
     Netmask := Netmask r;
     Gateway := Gateway r;
     FirmwareVersion := FirmwareVersion r;
     Timezone := Timezone r;
     Display := Display r;
     LED := LED r;
     VocFeatureSet := VocFeatureSet r |}.

Definition set_WifiMAC (x : string) (r : ConfigResponse) : ConfigResponse :=
  {| DeviceUUID := DeviceUUID r;
     WifiMAC := x;
     SSID := SSID r;
     IP := IP r;
     Netmask := Netmask r;
     Gateway := Gateway r;
     FirmwareVersion := FirmwareVersion r;
     Timezone := Timezone r;
     Display := Display r;
     LED := LED r;
     VocFeatureSet := VocFeatureSet r |}.

Definition set_SSID (x : string) (r : ConfigResponse) : ConfigResponse :=
  {| DeviceUUID := DeviceUUID r;
     WifiMAC := WifiMAC r;
     SSID := x;
     IP := IP r;
     Netmask := Netmask r;
     Gateway := Gateway r;
     FirmwareVersion := FirmwareVersion r;
     Timezone := Timezone r;
     Display := Display r;
     LED := LED r;
     VocFeatureSet := VocFeatureSet r |}.

Definition set_IP (x : string) (r : ConfigResponse) : ConfigResponse :=
  {| DeviceUUID := DeviceUUID r;
     WifiMAC := WifiMAC r;
     SSID := SSID r;
     IP := x;
     Netmask := Netmask r;
     Gateway := Gateway r;
     FirmwareVersion := FirmwareVersion r;
     Timezone := Timezone r;
     Display := Display r;
     LED := LED r;
     VocFeatureSet := VocFeatureSet r |}.

Definition set_Netmask (x : string) (r : ConfigResponse) : ConfigResponse :=
  {| DeviceUUID := DeviceUUID r;
     WifiMAC := WifiMAC r;
     SSID := SSID r;
     IP := IP r;
     Netmask := x;
     Gateway := Gateway r;
     FirmwareVersion := FirmwareVersion r;
     Timezone := Timezone r;
     Display := Display r;
     LED := LED r;
     VocFeatureSet := VocFeatureSet r |}.

Definition set_Gateway (x : string) (r : ConfigResponse) : ConfigResponse :=
  {| DeviceUUID := DeviceUUID r;
     WifiMAC := WifiMAC r;
     SSID := SSID r;
     IP := IP r;
     Netmask := Netmask r;
     Gateway := x;
     FirmwareVersion := FirmwareVersion r;
     Timezone := Timezone r;
     Display := Display r;
     LED := LED r;
     VocFeatureSet := VocFeatureSet r |}.

Definition set_FirmwareVersion (x : string) (r : ConfigResponse) : ConfigResponse :=
  {| DeviceUUID := DeviceUUID r;
     WifiMAC := WifiMAC r;
     SSID := SSID r;
     IP := IP r;
     Netmask := Netmask r;
     Gateway := Gateway r;
     FirmwareVersion := x;
     Timezone := Timezone r;
     Display := Display r;
     LED := LED r;
     VocFeatureSet := VocFeatureSet r |}.

Definition set_Timezone (x : string) (r : ConfigResponse) : ConfigResponse :=
  {| DeviceUUID := DeviceUUID r;
     WifiMAC := WifiMAC r;
     SSID := SSID r;
     IP := IP r;
     Netmask := Netmask r;
     Gateway := Gateway r;
     FirmwareVersion := FirmwareVersion r;
     Timezone := x;
     Display := Display r;
     LED := LED r;
     VocFeatureSet := VocFeatureSet r |}.

Definition set_Display (x : string) (r : ConfigResponse) : ConfigResponse :=
  {| DeviceUUID := DeviceUUID r;
     WifiMAC := WifiMAC r;
     SSID := SSID r;
     IP := IP r;
     Netmask := Netmask r;
     Gateway := Gateway r;
     FirmwareVersion := FirmwareVersion r;
     Timezone := Timezone r;
     Display := x;
     LED := LED r;
     VocFeatureSet := VocFeatureSet r |}.

Definition set_LED (x : LEDSettings) (r : ConfigResponse) : ConfigResponse :=
  {| DeviceUUID := DeviceUUID r;
     WifiMAC := WifiMAC r;
     SSID := SSID r;
     IP := IP r;
     Netmask := Netmask r;
     Gateway := Gateway r;
     FirmwareVersion := FirmwareVersion r;
     Timezone := Timezone r;
     Display := Display r;
     LED := x;
     VocFeatureSet := VocFeatureSet r |}.

Definition set_VocFeatureSet (x : Z) (r : ConfigResponse) : ConfigResponse :=
  {| DeviceUUID := DeviceUUID r;
     WifiMAC := WifiMAC r;
     SSID := SSID r;
     IP := IP r;
     Netmask := Netmask r;
     Gateway := Gateway r;
     FirmwareVersion := FirmwareVersion r;
     Timezone := Timezone r;
     Display := Display r;
     LED := LED r;
     VocFeatureSet := x |}.
(** *** The JSON names of the fields (the struct tags) *)

Definition AwairValues_fields : fields AwairValues :=
  [ ("score", into as_float64 set_Score);
    ("dew_point", into as_float64 set_DewPoint);
    ("temp", into as_float64 set_Temp);
    ("humid", into as_float64 set_Humidity);
    ("abs_humid", into as_float64 set_AbsHumidity);
    ("co2", into as_float64 set_CO2);
    ("co2_est", into as_float64 set_CO2Est);
    ("co2_est_baseline", into as_float64 set_CO2EstBaseline);
    ("voc", into as_float64 set_Voc);
    ("voc_baseline", into as_float64 set_VocBaseline);
    ("voc_h2_raw", into as_float64 set_VocH2Raw);
    ("voc_ethanol_raw", into as_float64 set_VocEthanolRaw);
    ("pm25", into as_float64 set_PM25);
    ("pm10_est", into as_float64 set_PM10Est) ].

Definition LEDSettings_fields : fields LEDSettings :=
  [ ("Mode", into as_string set_Mode);
    ("Brightness", into as_int set_Brightness) ].

Definition decode_LED : decoder ConfigResponse :=
  fun v c =>
    let '(l, e) := decode_struct LEDSettings_fields v (LED c) in
    (set_LED l c, e).

Definition ConfigResponse_fields : fields ConfigResponse :=
  [ ("device_uuid", into as_string set_DeviceUUID);
    ("wifi_mac", into as_string set_WifiMAC);
    ("ssid", into as_string set_SSID);
    ("ip", into as_string set_IP);
    ("netmask", into as_string set_Netmask);
    ("gateway", into as_string set_Gateway);
    ("fw_version", into as_string set_FirmwareVersion);
    ("timezone", into as_string set_Timezone);
    ("display", into as_string set_Display);
    ("led", decode_LED);
    ("voc_feature_set", into as_int set_VocFeatureSet) ].

(** *** The device, the network and the log

    A device answers a GET for a URI, given the URIs requested before, with
    a response or with a transport failure. A response has a status code and
    a body, which is read in full or fails while being read. *)
Inductive body :=
| Bytes (data : string)
| Broken (detail : string).

Record Response := {
  StatusCode : Z;
  Body : body
}.

Inductive answer :=
| Responds (r : Response)
| Refuses (detail : string).

Definition Device : Type := list string -> string -> answer.

Inductive Level := DebugLevel | InfoLevel | ErrorLevel.

(** The state a method runs in: the exporter its receiver points to, the
    requests sent so far and the log lines written so far (oldest first). *)
Record State := {
  self : AwairExporter;
  requests : list string;
  logs : list (Level * string)
}.

Definition M (A : Type) : Type := State -> A * State.

Definition ret {A : Type} (a : A) : M A := fun st => (a, st).

Definition bind {A B : Type} (m : M A) (k : A -> M B) : M B :=
  fun st => let '(a, st') := m st in k a st'.

Notation "x <- m ;; k" := (bind m (fun x => k))
  (at level 61, m at next level, right associativity).
Notation "' p <- m ;; k" := (bind m (fun x => match x with p => k end))
  (at level 61, p pattern, m at next level, right associativity).
Notation "m ;; k" := (bind m (fun _ => k))
  (at level 61, right associativity).

(** [e.hostname] *)
Definition get_hostname : M string := fun st => (hostname (self st), st).

(** [log.<Level>()...Msg(msg)] *)
Definition log (l : Level) (msg : string) : M unit :=
  fun st =>
    (tt, {| self := self st; requests := requests st;
            logs := logs st ++ [(l, msg)] |}).

(** [ioutil.ReadAll(resp.Body)] *)
Definition ReadAll (b : body) : string + error :=
  match b with
  | Bytes data => inl data
  | Broken detail => inr (ReadError detail)
  end.

Section Methods.

Variable device : Device.

(** [http.Get(uri)]: one request to the device. A response with any status
    code is a response; only a failure of the transport is an error. *)
Definition http_Get (uri : string) : M (Response + error) :=
  fun st =>
    (match device (requests st) uri with
     | Responds r => inl r
     | Refuses detail => inr (UrlError detail)
     end,
     {| self := self st; requests := requests st ++ [uri];
        logs := logs st |}).

Definition metrics_uri (host : string) : string :=
  "http://" ++ host ++ "/air-data/latest".

Definition config_uri (host : string) : string :=
  "http://" ++ host ++ "/settings/config/data".

(** [func (e *AwairExporter) GetMetrics()], returning a pointer to
    [AwairValues] and an error. *)
Definition GetMetrics : M (option AwairValues * option error) :=
  host <- get_hostname ;;
  let uri := metrics_uri host in
  log DebugLevel "Attempting to retrieve metrics from Awair device." ;;
  r <- http_Get uri ;;
  match r with
  | inr err => ret (None, Some err)
  | inl resp =>
    match ReadAll (Body resp) with
    | inr err => ret (None, Some err)
    | inl body =>
      let values := zero_AwairValues in
      let '(values, err) := Unmarshal AwairValues_fields body values in
      match err with
      | Some err => ret (None, Some err)
      | None => ret (Some values, None)
      end
    end
  end.

(** [func (e *AwairExporter) GetConfig()], returning a pointer to
    [ConfigResponse] and an error. *)
Definition GetConfig : M (option ConfigResponse * option error) :=
  host <- get_hostname ;;
  let uri := config_uri host in
  log DebugLevel "Attempting to retrieve config from Awair device." ;;
  r <- http_Get uri ;;
  match r with
  | inr err => ret (None, Some err)
  | inl resp =>
    match ReadAll (Body resp) with
    | inr err => ret (None, Some err)
    | inl body =>
      let config := zero_ConfigResponse in
      let '(config, err) := Unmarshal ConfigResponse_fields body config in
      match err with
      | Some err => ret (None, Some err)
      | None => ret (Some config, None)
      end
    end
  end.

(** [func NewAwairExporter(hostname string)], returning a pointer to the
    exporter and an error: the exporter is allocated, and its first configuration fetch decides whether
    it is returned. The function runs in the requests and log lines it finds
    and leaves the ones it made. *)
Definition NewAwairExporter (hostname : string)
  (requests : list string) (logs : list (Level * string))
  : (option AwairExporter * option error) * State :=
  let ex := {| hostname := hostname |} in
  let '((config, err), st) :=
    GetConfig {| self := ex; requests := requests; logs := logs |} in
  match err with
  | Some err => ((None, Some err), st)
  | None =>
    let '(_, st) := log InfoLevel "Successfully connected to Awair device." st in
    ((Some (self st), None), st)
  end.

(** [func (e *AwairExporter) Describe(ch chan<- *prometheus.Desc)]: the
    descriptors sent on [ch], in order. *)
Definition Describe : M (list Desc) :=
  ret [ score; dew_point; temp; humidity; abs_humidity; co2; co2_estimated;
        co2_estimate_baseline; voc; voc_baseline; voc_h2_raw;
        voc_ethanol_raw; pm25; pm10; info ].

(** *** [Collect] *)

(** The first goroutine, up to its [wg.Done()]: it assigns to the captured
    variable [values] whatever [GetMetrics] returns, and logs a failure. Its
    result is the pair of [values] and its local [err]. *)
Definition fetch_values (values : option AwairValues)
  : M (option AwairValues * option error) :=
  '(values, err) <- GetMetrics ;;
  match err with
  | Some _ => log ErrorLevel "Error retrieving Metrics from device"
  | None => ret tt
  end ;;
  (* wg.Done() *)
  ret (values, err).

(** What is left of the first goroutine after its [wg.Done()]. The barrier
    does not wait for it: the line is written while the emission phase
    runs, or after it, or not at all when the panic of the emission phase
    ends the process first. It is therefore no part of what has happened
    when [wg.Wait()] returns. *)
Definition after_Done : M unit :=
  log DebugLevel "Metrics successfully retrieved".

(** The second goroutine, for [config]; its [wg.Done()] comes last. *)
Definition fetch_config (config : option ConfigResponse)
  : M (option ConfigResponse * option error) :=
  '(config, err) <- GetConfig ;;
  match err with
  | Some _ => log ErrorLevel "Error retrieving Metrics from device"
  | None => ret tt
  end ;;
  log DebugLevel "Config successfully retrieved" ;;
  (* wg.Done() *)
  ret (config, err).

(** The two goroutines run between [wg.Add(2)] and [wg.Wait()]; each
    writes one variable of its own and issues one request. The schedule says
    whose request reaches the device first; the log lines the two write
    before their [wg.Done()] are recorded in the same order (how they
    interleave changes no result). *)
Inductive Schedule := MetricsFirst | ConfigFirst.

Definition fetch_both (sched : Schedule)
  (values : option AwairValues) (config : option ConfigResponse)
  : M ((option AwairValues * option error)
       * (option ConfigResponse * option error)) :=
  match sched with
  | MetricsFirst =>
    v <- fetch_values values ;; c <- fetch_config config ;; ret (v, c)
  | ConfigFirst =>
    c <- fetch_config config ;; v <- fetch_values values ;; ret (v, c)
  end.

(** Reading a field through a pointer. *)
Definition deref {A : Type} (p : option A) : panic + A :=
  match p with
  | Some a => inr a
  | None => inl NilDereference
  end.

(** One statement [ch <- prometheus.MustNewConstMetric(...)] of the
    emission phase: the metric it sends, or the panic it raises. *)
Definition statement : Type :=
  option AwairValues -> option ConfigResponse -> panic + Metric.

Definition gauge (d : Desc) (field : AwairValues -> float64) : statement :=
  fun values config =>
    match deref values with
    | inl p => inl p
    | inr v =>
      match deref config with
      | inl p => inl p
      | inr c => MustNewConstMetric d GaugeValue (field v) [DeviceUUID c]
      end
    end.

Definition device_info : statement :=
  fun _ config =>
    match deref config with
    | inl p => inl p
    | inr c =>
      MustNewConstMetric info GaugeValue (float64_of_Z 1)
        [DeviceUUID c; FirmwareVersion c; Itoa (VocFeatureSet c)]
    end.

Definition statements : list statement :=
  [ gauge score Score;
    gauge dew_point DewPoint;
    gauge temp Temp;
    gauge humidity Humidity;
    gauge abs_humidity AbsHumidity;
    gauge co2 CO2;
    gauge co2_estimated CO2Est;
    gauge co2_estimate_baseline CO2EstBaseline;
    gauge voc Voc;
    gauge voc_baseline VocBaseline;
    gauge voc_h2_raw VocH2Raw;
    gauge voc_ethanol_raw VocEthanolRaw;
    gauge pm25 PM25;
    gauge pm10 PM10Est;
    device_info ].

(** What a collection leaves behind: the metrics sent on the channel, in
    order, and the panic that stopped it, if one did. *)
Record Collected := {
  sent : list Metric;
  panicked : option panic
}.

Fixpoint emit (ss : list statement) (values : option AwairValues)
  (config : option ConfigResponse) (ch : list Metric) : Collected :=
  match ss with
  | [] => {| sent := ch; panicked := None |}
  | s :: ss' =>
    match s values config with
    | inl p => {| sent := ch; panicked := Some p |}
    | inr m => emit ss' values config (ch ++ [m])
    end
  end.

(** [func (e *AwairExporter) Collect(ch chan<- prometheus.Metric)]: the
    two variables start as zero-valued records, the goroutines assign to
    them, and after [wg.Wait()] the fifteen statements run on what the
    variables then hold. The state it leaves has the requests and the log
    lines made before [wg.Wait()] returned; the line of [after_Done] is not
    ordered with the emission phase and is not among them. *)
Definition Collect (sched : Schedule) : M Collected :=
  let values := Some zero_AwairValues in
  let config := Some zero_ConfigResponse in
  '((values, _), (config, _)) <- fetch_both sched values config ;;
  ret (emit statements values config []).

End Methods.

End exporter.

(** ** Texts whose strings are well-formed UTF-8 (used in the proofs) *)

Module wf.

Import utf8 json.

Definition token_ok (t : token) : Prop :=
  match t with
  | TString s => WellFormed s
  | _ => True
  end.

Fixpoint value_ok (v : value) : Prop :=
  match v with
  | Str s => WellFormed s
  | Array es =>
    (fix all (l : list value) : Prop :=
       match l with
       | [] => True
       | e :: l' => value_ok e /\ all l'
       end) es
  | Object ms =>
    (fix all (l : list (string * value)) : Prop :=
       match l with
       | [] => True
       | (_, e) :: l' => value_ok e /\ all l'
       end) ms
  | Null | Bool _ | Number _ => True
  end.

Definition member_ok (kv : string * value) : Prop := value_ok (snd kv).

Definition frame_ok (f : frame) : Prop :=
  match f with
  | FArray es => Forall value_ok es
  | FObject ms _ => Forall member_ok ms
  end.

Definition pstate_ok (st : pstate) : Prop :=
  Forall frame_ok (fst st)
  /\ match snd st with EndTop v => value_ok v | _ => True end.

End wf.

(** ** What the properties are stated with *)

Module spec.

Import utf8 strconv json prometheus exporter.

(** A gauge observation. *)
Definition observation (d : Desc) (x : float64) (labels : list string)
  : Metric :=
  {| desc := d; valueType := GaugeValue; value := x; labelValues := labels |}.

(** The fifteen observations of one collection, in the order [Collect]
    sends them: a gauge for each of the fourteen readings, labelled with the
    device identifier, then the device information. *)
Definition snapshot (v : AwairValues) (c : ConfigResponse) : list Metric :=
  let id := [DeviceUUID c] in
  [ observation score (Score v) id;
    observation dew_point (DewPoint v) id;
    observation temp (Temp v) id;
    observation humidity (Humidity v) id;
    observation abs_humidity (AbsHumidity v) id;
    observation co2 (CO2 v) id;
    observation co2_estimated (CO2Est v) id;
    observation co2_estimate_baseline (CO2EstBaseline v) id;
    observation voc (Voc v) id;
    observation voc_baseline (VocBaseline v) id;
    observation voc_h2_raw (VocH2Raw v) id;
    observation voc_ethanol_raw (VocEthanolRaw v) id;
    observation pm25 (PM25 v) id;
    observation pm10 (PM10Est v) id;
    observation info (float64_of_Z 1)
      [DeviceUUID c; FirmwareVersion c; Itoa (VocFeatureSet c)] ].

(** The name and the label names of a descriptor. *)
Definition signature (d : Desc) : string * list string :=
  (fqName d, variableLabels d).

(** The operations on an exporter, and the state a sequence of them leaves. *)
Inductive Op :=
| OpDescribe
| OpCollect (sched : Schedule)
| OpGetMetrics
| OpGetConfig.

Definition run_op (device : Device) (op : Op) (st : State) : State :=
  match op with
  | OpDescribe => snd (Describe st)
  | OpCollect sched => snd (Collect device sched st)
  | OpGetMetrics => snd (GetMetrics device st)
  | OpGetConfig => snd (GetConfig device st)
  end.

Definition run_ops (device : Device) (ops : list Op) (st : State) : State :=
  fold_left (fun st op => run_op device op st) ops st.

(** A computation that leaves the exporter as it found it. *)
Definition keeps_self {A : Type} (m : M A) : Prop :=
  forall st, self (snd (m st)) = self st.

(** The results of the two fetches of one collection: what the goroutines
    leave in [values] and [config], each with the goroutine's [err]. *)
Definition fetched (device : Device) (sched : Schedule) (st : State)
  : (option AwairValues * option error)
    * (option ConfigResponse * option error) :=
  fst (fetch_both device sched (Some zero_AwairValues)
         (Some zero_ConfigResponse) st).

Definition readings_err (device : Device) (sched : Schedule) (st : State)
  : option error :=
  snd (fst (fetched device sched st)).

Definition config_err (device : Device) (sched : Schedule) (st : State)
  : option error :=
  snd (snd (fetched device sched st)).

(** A collection exposes the sample [name{pairs} x]. *)
Definition exposes (out : Collected) (name : string)
  (pairs : list (string * string)) (x : float64) : Prop :=
  exists m, In m (sent out) /\ fqName (desc m) = name
            /\ valueType m = GaugeValue
            /\ labelPairs m = pairs /\ value m = x.

(** The fields of the structs by their JSON names. *)
Definition AwairValues_getters : list (string * (AwairValues -> float64)) :=
  [ ("score", Score); ("dew_point", DewPoint); ("temp", Temp);
    ("humid", Humidity); ("abs_humid", AbsHumidity); ("co2", CO2);
    ("co2_est", CO2Est); ("co2_est_baseline", CO2EstBaseline);
    ("voc", Voc); ("voc_baseline", VocBaseline); ("voc_h2_raw", VocH2Raw);
    ("voc_ethanol_raw", VocEthanolRaw); ("pm25", PM25);
    ("pm10_est", PM10Est) ].

Definition ConfigResponse_getters
  : list (string * (ConfigResponse -> string)) :=
  [ ("device_uuid", DeviceUUID); ("wifi_mac", WifiMAC); ("ssid", SSID);
    ("ip", IP); ("netmask", Netmask); ("gateway", Gateway);
    ("fw_version", FirmwareVersion); ("timezone", Timezone);
    ("display", Display) ].

(** No member of an object has a key that selects the field [name]. *)
Definition missing (name : string) (ms : list (string * json.value))
  : Prop :=
  forall k v, In (k, v) ms -> key_matches name k = false.

(** The strings of a configuration that become label values. *)
Definition labels_ok (c : ConfigResponse) : Prop :=
  WellFormed (DeviceUUID c) /\ WellFormed (FirmwareVersion c).

(** *** Sample bodies and devices

    A JSON text is written here with an apostrophe where the text has a
    double quote; [json_text] puts the double quotes in. *)
Definition json_text (s : string) : string :=
  string_of_list_ascii
    (map (fun c => if (code c =? 39)%N then byte_of 34 else c)
       (list_ascii_of_string s)).

Definition readings_body : string :=
  json_text
    "{'score':85,'dew_point':12.3,'temp':21.5,'humid':40.2,'abs_humid':7.1,'co2':612,'co2_est':600,'co2_est_baseline':4200,'voc':250,'voc_baseline':18000,'voc_h2_raw':12500,'voc_ethanol_raw':18800,'pm25':3,'pm10_est':5}".

Definition config_body : string :=
  json_text
    "{'device_uuid':'awair-123','fw_version':'1.2.3','voc_feature_set':3}".

(** What the sample bodies decode to. *)
Definition sample_readings : AwairValues :=
  Eval vm_compute in
    fst (Unmarshal AwairValues_fields readings_body zero_AwairValues).

Definition sample_config : ConfigResponse :=
  Eval vm_compute in
    fst (Unmarshal ConfigResponse_fields config_body zero_ConfigResponse).

Definition ok200 (data : string) : answer :=
  Responds {| StatusCode := 200; Body := Bytes data |}.

(** A device at host [awair] that serves both resources. *)
Definition healthy : Device :=
  fun _ uri =>
    if String.eqb uri "http://awair/air-data/latest" then ok200 readings_body
    else if String.eqb uri "http://awair/settings/config/data"
    then ok200 config_body
    else Refuses "no such resource".

(** The same device when its readings resource cannot be reached. *)
Definition readings_down : Device :=
  fun _ uri =>
    if String.eqb uri "http://awair/settings/config/data"
    then ok200 config_body
    else Refuses "connection refused".

(** The same device when its configuration resource cannot be reached. *)
Definition config_down : Device :=
  fun _ uri =>
    if String.eqb uri "http://awair/air-data/latest" then ok200 readings_body
    else Refuses "connection refused".

(** A device that answers every request with status 500 and an empty
    JSON object. *)
Definition failing500 : Device :=
  fun _ _ => Responds {| StatusCode := 500; Body := Bytes "{}" |}.

(** A device that cannot be reached at all. *)
Definition unreachable : Device := fun _ _ => Refuses "no route to host".

(** A freshly constructed exporter for host [awair], before any request. *)
Definition fresh : State :=
  {| self := {| hostname := "awair" |}; requests := []; logs := [] |}.

End spec.

(** ** What the further properties are stated with *)

Module more.

Import utf8 strconv json prometheus exporter spec.

(** The wiring of the readings: the JSON name of a field, the field, and
    the descriptor of the gauge that reports it. *)
Definition gauges : list (string * (AwairValues -> float64) * Desc) :=
  [ ("score", Score, score);
    ("dew_point", DewPoint, dew_point);
    ("temp", Temp, temp);
    ("humid", Humidity, humidity);
    ("abs_humid", AbsHumidity, abs_humidity);
    ("co2", CO2, co2);
    ("co2_est", CO2Est, co2_estimated);
    ("co2_est_baseline", CO2EstBaseline, co2_estimate_baseline);
    ("voc", Voc, voc);
    ("voc_baseline", VocBaseline, voc_baseline);
    ("voc_h2_raw", VocH2Raw, voc_h2_raw);
    ("voc_ethanol_raw", VocEthanolRaw, voc_ethanol_raw);
    ("pm25", PM25, pm25);
    ("pm10_est", PM10Est, pm10) ].

(** The value of the last member of an object whose key selects the field
    named [name], if there is one. *)
Fixpoint lookup_last (name : string) (ms : list (string * json.value))
  : option json.value :=
  match ms with
  | [] => None
  | (k, v) :: ms' =>
    match lookup_last name ms' with
    | Some v' => Some v'
    | None => if key_matches name k then Some v else None
    end
  end.

(** The key [k] selects one of the fields named in [names]. *)
Definition selects_one (names : list string) (k : string) : bool :=
  existsb (fun n => key_matches n k) names.

(** A value that cannot be stored in a [float64] field: neither [null] nor
    a number in range. *)
Definition not_a_reading (v : json.value) : bool :=
  match v with
  | Null => false
  | Number lit =>
    match ParseFloat lit with Some _ => false | None => true end
  | _ => true
  end.

(** A member that the decoder of the readings refuses. *)
Definition refused_reading (kv : string * json.value) : bool :=
  selects_one (map fst AwairValues_getters) (fst kv)
  && not_a_reading (snd kv).

(** Values that cannot be stored in a [string] field, in an [int] field
    and in the [LEDSettings] field. *)
Definition not_a_string (v : json.value) : bool :=
  match v with
  | Null | Str _ => false
  | _ => true
  end.

Definition not_an_int (v : json.value) : bool :=
  match v with
  | Null => false
  | Number lit => match ParseInt lit with Some _ => false | None => true end
  | _ => true
  end.

Definition refused_led (kv : string * json.value) : bool :=
  (key_matches "Mode" (fst kv) && not_a_string (snd kv))
  || (key_matches "Brightness" (fst kv) && not_an_int (snd kv)).

Definition not_led (v : json.value) : bool :=
  match v with
  | Null => false
  | Object ms => existsb refused_led ms
  | _ => true
  end.

(** A member that the decoder of the configuration refuses. *)
Definition refused_config (kv : string * json.value) : bool :=
  (selects_one (map fst ConfigResponse_getters) (fst kv)
   && not_a_string (snd kv))
  || (key_matches "led" (fst kv) && not_led (snd kv))
  || (key_matches "voc_feature_set" (fst kv) && not_an_int (snd kv)).

Definition is_null (v : json.value) : bool :=
  match v with
  | Null => true
  | _ => false
  end.

(** The value of the last member of an object that selects the field named
    [name] and is not [null]. *)
Fixpoint last_stored (name : string) (ms : list (string * json.value))
  : option json.value :=
  match ms with
  | [] => None
  | (k, v) :: ms' =>
    match last_stored name ms' with
    | Some v' => Some v'
    | None =>
      if key_matches name k && negb (is_null v) then Some v else None
    end
  end.

(** The number an object leaves in the readings field named [name]: that
    of the last member that selects the field and is not [null], and zero
    when there is none. *)
Definition reading_of (name : string) (ms : list (string * json.value))
  : float64 :=
  match last_stored name ms with
  | Some (Number lit) =>
    match ParseFloat lit with Some x => x | None => zero_float64 end
  | _ => zero_float64
  end.

(** The Readings record of an object, field by field. *)
Definition readings_of (ms : list (string * json.value)) : AwairValues :=
  {| Score := reading_of "score" ms;
     DewPoint := reading_of "dew_point" ms;
     Temp := reading_of "temp" ms;
     Humidity := reading_of "humid" ms;
     AbsHumidity := reading_of "abs_humid" ms;
     CO2 := reading_of "co2" ms;
     CO2Est := reading_of "co2_est" ms;
     CO2EstBaseline := reading_of "co2_est_baseline" ms;
     Voc := reading_of "voc" ms;
     VocBaseline := reading_of "voc_baseline" ms;
     VocH2Raw := reading_of "voc_h2_raw" ms;
     VocEthanolRaw := reading_of "voc_ethanol_raw" ms;
     PM25 := reading_of "pm25" ms;
     PM10Est := reading_of "pm10_est" ms |}.

(** What [GetMetrics] returns for a body that is a JSON text: the record
    of an object none of whose members is refused, the zero record for
    [null], and a type error for everything else. *)
Definition readings_result (j : json.value)
  : option AwairValues * option error :=
  match j with
  | Object ms =>
    if existsb refused_reading ms then (None, Some UnmarshalTypeError)
    else (Some (readings_of ms), None)
  | Null => (Some zero_AwairValues, None)
  | Bool _ | Number _ | Str _ | Array _ => (None, Some UnmarshalTypeError)
  end.

(** The answers of the device for the two resources of the exporter are
    the same whichever of the two is requested first. *)
Definition order_independent (device : Device) (st : State) : Prop :=
  let h := hostname (self st) in
  device (requests st ++ [config_uri h])%list (metrics_uri h)
  = device (requests st) (metrics_uri h)
  /\ device (requests st ++ [metrics_uri h])%list (config_uri h)
     = device (requests st) (config_uri h).

(** A device whose answer for [uri] does not depend on the requests made
    before. *)
Definition stable (device : Device) (uri : string) : Prop :=
  forall h h', device h uri = device h' uri.

Definition is_error_line (l : Level * string) : bool :=
  match fst l with
  | ErrorLevel => true
  | _ => false
  end.

(** The number of fetches of a collection that failed. *)
Definition failures (device : Device) (sched : Schedule) (st : State) : nat :=
  (match readings_err device sched st with Some _ => 1 | None => 0 end
   + match config_err device sched st with Some _ => 1 | None => 0 end)%nat.

(** A configuration body with the network identity of the device in it,
    and a device that serves it. *)
Definition verbose_config_body : string :=
  json_text
    "{'device_uuid':'awair-123','wifi_mac':'70:88:6B:00:00:01','ssid':'home','ip':'192.168.1.20','netmask':'255.255.255.0','gateway':'192.168.1.1','fw_version':'1.2.3','timezone':'Europe/Paris','display':'score','led':{'mode':'auto','brightness':179},'voc_feature_set':3}".

Definition verbose_config : ConfigResponse :=
  Eval vm_compute in
    fst (Unmarshal ConfigResponse_fields verbose_config_body
           zero_ConfigResponse).

Definition verbose : Device :=
  fun _ uri =>
    if String.eqb uri "http://awair/air-data/latest" then ok200 readings_body
    else if String.eqb uri "http://awair/settings/config/data"
    then ok200 verbose_config_body
    else Refuses "no such resource".

(** A device whose readings carry the score as a string. *)
Definition mistyped : Device :=
  fun _ uri =>
    if String.eqb uri "http://awair/air-data/latest"
    then ok200 (json_text "{'score':'85','temp':21.5}")
    else ok200 config_body.

(** Devices whose readings do not have the shape of the Readings record:
    the body [null], an object with none of the keys, and an object whose
    readings are all [null]. *)
Definition null_body : Device := fun _ _ => ok200 "null".

Definition other_keys : Device :=
  fun _ _ => ok200 (json_text "{'error':'sensor offline','scores':[85]}").

Definition null_members : Device :=
  fun _ _ => ok200 (json_text "{'score':null,'temp':null,'co2':null}").

(** A device that counts its requests: from the third request on it
    refuses. Its answers to the first two do not depend on their order. *)
Definition warm : Device :=
  fun h uri =>
    if (2 <=? List.length h)%nat then Refuses "too many requests"
    else if String.eqb uri "http://awair/air-data/latest"
    then ok200 readings_body
    else ok200 config_body.

(** A device whose configuration carries the feature set with a fraction. *)
Definition fractional : Device :=
  fun _ _ =>
    ok200 (json_text "{'device_uuid':'awair-123','voc_feature_set':3.0}").

End more.

(** * Properties *)

(** ** UTF-8: what [EncodeRune] writes, [DecodeRune] reads *)

Section Utf8Facts.

Import utf8.
Local Open Scope N_scope.

Lemma code_byte_of n : n < 256 -> code (byte_of n) = n.
Proof. intros H. unfold code, byte_of. apply N_ascii_embedding. exact H. Qed.

Lemma byte_of_code c : byte_of (code c) = c.
Proof. unfold code, byte_of. apply ascii_N_embedding. Qed.

Ltac split_tests :=
  repeat match goal with
  | |- context [?a <? ?b] => destruct (N.ltb_spec a b); try lia
  | |- context [?a <=? ?b] => destruct (N.leb_spec a b); try lia
  | |- context [?a =? ?b] => destruct (N.eqb_spec a b); try lia
  end.

Lemma written_range r :
  written r < 0xD800 \/ (0xE000 <= written r /\ written r <= 0x10FFFF).
Proof.
  unfold written, ValidRune, between, MaxRune, RuneError.
  split_tests; simpl; lia.
Qed.

Lemma decode1 b0 s : b0 < 0x80 ->
  DecodeRune (String (byte_of b0) s) = (b0, 1%nat).
Proof.
  intros H. unfold DecodeRune. rewrite code_byte_of by lia.
  unfold RuneSelf. split_tests; reflexivity.
Qed.

Lemma decode2 b0 b1 s : 0xC2 <= b0 <= 0xDF -> 0x80 <= b1 <= 0xBF ->
  DecodeRune (String (byte_of b0) (String (byte_of b1) s))
  = ((b0 - 0xC0) * 64 + (b1 - 0x80), 2%nat).
Proof.
  intros H0 H1. unfold DecodeRune, cont.
  rewrite !code_byte_of by lia.
  unfold RuneSelf, between. split_tests; reflexivity.
Qed.

Lemma decode3 b0 b1 b2 s :
  0xE0 <= b0 <= 0xEF -> second_ok b0 b1 = true -> b1 < 256 ->
  0x80 <= b2 <= 0xBF ->
  DecodeRune
    (String (byte_of b0) (String (byte_of b1) (String (byte_of b2) s)))
  = ((b0 - 0xE0) * 4096 + (b1 - 0x80) * 64 + (b2 - 0x80), 3%nat).
Proof.
  intros H0 H1 Hb H2. unfold DecodeRune, cont.
  rewrite !code_byte_of by lia. rewrite H1.
  unfold RuneSelf, between. split_tests; reflexivity.
Qed.

Lemma decode4 b0 b1 b2 b3 s :
  0xF0 <= b0 <= 0xF4 -> second_ok b0 b1 = true -> b1 < 256 ->
  0x80 <= b2 <= 0xBF -> 0x80 <= b3 <= 0xBF ->
  DecodeRune
    (String (byte_of b0) (String (byte_of b1)
       (String (byte_of b2) (String (byte_of b3) s))))
  = ((b0 - 0xF0) * 262144 + (b1 - 0x80) * 4096 + (b2 - 0x80) * 64
     + (b3 - 0x80), 4%nat).
Proof.
  intros H0 H1 Hb H2 H3. unfold DecodeRune, cont.
  rewrite !code_byte_of by lia. rewrite H1.
  unfold RuneSelf, between. split_tests; reflexivity.
Qed.

(** Decoding what was encoded gives the rune back, and its width. *)
Lemma DecodeRune_EncodeRune r s :
  DecodeRune (EncodeRune r ++ s) = (written r, String.length (EncodeRune r)).
Proof.
  unfold EncodeRune. cbv zeta.
  pose proof (written_range r) as Hq.
  generalize dependent (written r). intros q Hq.
  destruct (N.ltb_spec q 0x80).
  { cbn [append String.length]. apply decode1. assumption. }
  destruct (N.ltb_spec q 0x800).
  { cbn [append String.length]. rewrite decode2 by lia. f_equal. lia. }
  destruct (N.ltb_spec q 0x10000).
  { cbn [append String.length]. rewrite decode3; try lia.
    - f_equal. lia.
    - unfold second_ok, between. split_tests; reflexivity. }
  cbn [append String.length]. rewrite decode4; try lia.
  - f_equal. lia.
  - unfold second_ok, between. split_tests; reflexivity.
Qed.

Lemma valid_from_skip t s :
  valid_from (String.length t) (t ++ s) = valid_from 0 s.
Proof. induction t as [|c t IH]; [reflexivity | exact IH]. Qed.

Lemma EncodeRune_nonempty r : exists c t, EncodeRune r = String c t.
Proof.
  unfold EncodeRune.
  repeat match goal with |- context [if ?b then _ else _] => destruct b end;
  eauto.
Qed.

Lemma written_not_error1 r :
  (written r =? RuneError) && Nat.eqb (String.length (EncodeRune r)) 1 = false.
Proof.
  unfold EncodeRune. cbv zeta. unfold RuneError.
  destruct (N.eqb_spec (written r) 0xFFFD) as [->|]; reflexivity.
Qed.

Lemma valid_from_encoded r s :
  valid_from 0 (EncodeRune r ++ s) = valid_from 0 s.
Proof.
  pose proof (DecodeRune_EncodeRune r s) as HD.
  pose proof (written_not_error1 r) as HN.
  destruct (EncodeRune_nonempty r) as (c & t & E). rewrite E in *.
  cbn [append valid_from] in *. rewrite HD, HN.
  cbn [String.length Nat.pred]. apply valid_from_skip.
Qed.

(** A string of encoded runes is valid UTF-8. *)
Lemma WellFormed_valid s : WellFormed s -> ValidString s = true.
Proof.
  unfold ValidString. induction 1 as [|r s _ IH]; [reflexivity|].
  rewrite valid_from_encoded. exact IH.
Qed.

Lemma string_app_assoc (a b c : string) : ((a ++ b) ++ c = a ++ (b ++ c))%string.
Proof. induction a as [|x a IH]; simpl; [reflexivity | now rewrite IH]. Qed.

Lemma string_app_empty (a : string) : (a ++ "" = a)%string.
Proof. induction a as [|x a IH]; simpl; [reflexivity | now rewrite IH]. Qed.

Lemma WellFormed_app a b :
  WellFormed a -> WellFormed b -> WellFormed (a ++ b).
Proof.
  induction 1 as [|r s _ IH]; intros Hb; [exact Hb|].
  rewrite string_app_assoc. constructor. apply IH, Hb.
Qed.

Lemma WellFormed_EncodeRune r : WellFormed (EncodeRune r).
Proof. rewrite <- (string_app_empty (EncodeRune r)). repeat constructor. Qed.

Lemma WellFormed_ascii c s :
  code c < 0x80 -> WellFormed s -> WellFormed (String c s).
Proof.
  intros H Hs.
  replace (String c s) with (EncodeRune (code c) ++ s)%string.
  - constructor. exact Hs.
  - unfold EncodeRune, written, ValidRune.
    destruct (N.ltb_spec (code c) 0xD800); [|lia]. simpl.
    destruct (N.ltb_spec (code c) 0x80); [|lia]. simpl.
    now rewrite byte_of_code.
Qed.

End Utf8Facts.

(** ** JSON: every string of a parsed text is well-formed UTF-8 *)

Section JsonFacts.

Import utf8 strconv json wf.
Local Open Scope N_scope.

Lemma escape_piece_wf t out w :
  escape_piece t = Emit out w -> WellFormed out.
Proof.
  unfold escape_piece. destruct t as [|e t1]; [discriminate|].
  repeat match goal with
  | |- context [if ?b then _ else _] => destruct b eqn:?
  | |- context [match ?x with _ => _ end] => destruct x eqn:?
  end; intros H; inversion H; subst; clear H;
  try apply WellFormed_EncodeRune;
  try (apply WellFormed_ascii; [|constructor]).
  - apply Bool.orb_true_iff in Heqb as [H|H];
      [apply Bool.orb_true_iff in H as [H|H]|];
      apply N.eqb_eq in H; rewrite H; reflexivity.
  - reflexivity.
  - reflexivity.
  - reflexivity.
  - reflexivity.
  - reflexivity.
Qed.

Lemma string_piece_wf s out w :
  string_piece s = Emit out w -> WellFormed out.
Proof.
  unfold string_piece. destruct s as [|c t]; [discriminate|].
  destruct (code c =? 34); [discriminate|].
  destruct (code c =? 92); [apply escape_piece_wf|].
  destruct (code c <? 32); [discriminate|].
  destruct (N.ltb_spec (code c) RuneSelf) as [Hlt|_].
  - intros H; inversion H; subst. apply WellFormed_ascii; [exact Hlt|constructor].
  - destruct (DecodeRune (String c t)) as [r size].
    intros H; inversion H; subst. apply WellFormed_EncodeRune.
Qed.

Lemma lex_string_wf s : forall skip acc n r m,
  WellFormed acc -> lex_string skip s acc n = Some (r, m) -> WellFormed r.
Proof.
  induction s as [|c t IH]; intros skip acc n r m Hacc; cbn [lex_string];
    [discriminate|].
  destruct skip as [|k]; [|apply IH, Hacc].
  destruct (string_piece (String c t)) as [|out w|] eqn:E.
  - intros H; inversion H; subst. exact Hacc.
  - apply IH. apply WellFormed_app; [exact Hacc|].
    eapply string_piece_wf, E.
  - discriminate.
Qed.

Lemma lex_word_ok w tok s r n :
  token_ok tok -> lex_word w tok s = Some (r, n) -> token_ok r.
Proof.
  unfold lex_word. destruct (prefix w s); [|discriminate].
  intros Hok H; inversion H; subst. exact Hok.
Qed.

Lemma lex1_ok s tok n : lex1 s = Some (tok, n) -> token_ok tok.
Proof.
  unfold lex1. destruct s as [|c t]; [discriminate|].
  repeat match goal with
  | |- context [if ?b then _ else _] => destruct b
  end;
  try (intros H; inversion H; subst; exact I);
  try (apply lex_word_ok; exact I);
  try discriminate.
  - destruct (lex_string 0 t "" 1) as [[str m]|] eqn:E; [|discriminate].
    intros H; inversion H; subst. simpl.
    eapply lex_string_wf; [constructor | exact E].
  - destruct (lex_number (String c t)) as [[d m]|]; [|discriminate].
    intros H; inversion H; subst. exact I.
Qed.

Lemma tokenize_ok s : forall skip ts,
  tokenize skip s = Some ts -> Forall token_ok ts.
Proof.
  induction s as [|c t IH]; intros skip ts; cbn [tokenize].
  - intros H; inversion H; constructor.
  - destruct skip as [|k]; [|apply IH].
    destruct (isSpace c); [apply IH|].
    destruct (lex1 (String c t)) as [[tok n]|] eqn:E; [|discriminate].
    destruct (tokenize (Nat.pred n) t) as [toks|] eqn:T; [|discriminate].
    intros H; inversion H; subst. constructor.
    + eapply lex1_ok, E.
    + eapply IH, T.
Qed.

Lemma value_ok_Array es : value_ok (Array es) <-> Forall value_ok es.
Proof.
  induction es as [|e es IH]; simpl.
  - split; constructor.
  - split.
    + intros [H1 H2]. constructor; [exact H1 | apply IH, H2].
    + intros H. inversion H; subst. split; [assumption | apply IH; assumption].
Qed.

Lemma value_ok_Object ms : value_ok (Object ms) <-> Forall member_ok ms.
Proof.
  induction ms as [|[k e] ms IH]; simpl.
  - split; constructor.
  - split.
    + intros [H1 H2]. constructor; [exact H1 | apply IH, H2].
    + intros H. inversion H; subst. split; [assumption | apply IH; assumption].
Qed.

Lemma close_value_ok stk v st :
  Forall frame_ok stk -> value_ok v ->
  close_value stk v = Some st -> pstate_ok st.
Proof.
  intros Hs Hv. unfold close_value.
  destruct stk as [|[es|ms [k|]] stk']; intros H; inversion H; subst; clear H.
  - split; [constructor | exact Hv].
  - inversion Hs; subst. split; [|exact I].
    constructor; [|assumption]. simpl. constructor; assumption.
  - inversion Hs; subst. split; [|exact I].
    constructor; [|assumption]. simpl. constructor; assumption.
Qed.

Lemma open_frame_ok stk f m st :
  Forall frame_ok stk -> frame_ok f -> (match m with EndTop _ => False | _ => True end) ->
  open_frame stk f m = Some st -> pstate_ok st.
Proof.
  intros Hs Hf Hm. unfold open_frame.
  destruct (_ <? _)%nat; [discriminate|].
  intros H; inversion H; subst. split.
  - constructor; assumption.
  - simpl. destruct m; try exact I. contradiction.
Qed.

Lemma begin_value_ok stk t st :
  Forall frame_ok stk -> token_ok t ->
  begin_value stk t = Some st -> pstate_ok st.
Proof.
  intros Hs Ht. destruct t; simpl; try discriminate;
  try (apply close_value_ok; [exact Hs | exact I || exact Ht]);
  apply open_frame_ok; try exact Hs; try exact I; constructor.
Qed.

Lemma set_key_ok stk k st :
  Forall frame_ok stk -> set_key stk k = Some st -> pstate_ok st.
Proof.
  intros Hs. unfold set_key.
  destruct stk as [|[es|ms [k'|]] stk']; intros H; inversion H; subst.
  inversion Hs; subst. split; [|exact I]. constructor; assumption.
Qed.

Lemma close_array_ok stk st :
  Forall frame_ok stk -> close_array stk = Some st -> pstate_ok st.
Proof.
  intros Hs. unfold close_array.
  destruct stk as [|[es|ms k] stk']; try discriminate.
  inversion Hs; subst. apply close_value_ok; [assumption|].
  apply value_ok_Array, Forall_rev. assumption.
Qed.

Lemma close_object_ok stk st :
  Forall frame_ok stk -> close_object stk = Some st -> pstate_ok st.
Proof.
  intros Hs. unfold close_object.
  destruct stk as [|[es|ms [k|]] stk']; try discriminate.
  inversion Hs; subst. apply close_value_ok; [assumption|].
  apply value_ok_Object, Forall_rev. assumption.
Qed.

Lemma step_ok st t st' :
  pstate_ok st -> token_ok t -> step st t = Some st' -> pstate_ok st'.
Proof.
  destruct st as [stk m]. intros [Hs _] Ht. simpl in Hs.
  unfold step.
  destruct m; destruct t; try discriminate;
  try (apply begin_value_ok; assumption);
  try (apply close_array_ok; assumption);
  try (apply close_object_ok; assumption);
  try (apply set_key_ok; assumption).
  - intros H; inversion H; subst. split; [exact Hs | exact I].
  - destruct stk as [|[es|ms [k|]] stk']; intros H; inversion H; subst;
      (split; [exact Hs | exact I]).
Qed.

Lemma steps_ok ts : forall st st',
  pstate_ok st -> Forall token_ok ts -> steps st ts = Some st' -> pstate_ok st'.
Proof.
  induction ts as [|t ts IH]; intros st st' Hst Hts; simpl.
  - intros H; inversion H; subst. exact Hst.
  - inversion Hts; subst.
    destruct (step st t) as [st1|] eqn:E; [|discriminate].
    apply IH; [|assumption]. eapply step_ok; eauto.
Qed.

(** Every string value of a parsed text is well-formed UTF-8. *)
Lemma parse_ok data v : parse data = Some v -> value_ok v.
Proof.
  unfold parse.
  destruct (tokenize 0 data) as [ts|] eqn:T; [|discriminate].
  destruct (steps ([], BeginValue) ts) as [[stk m]|] eqn:S; [|discriminate].
  assert (H : pstate_ok (stk, m)).
  { eapply steps_ok; [| eapply tokenize_ok, T | exact S].
    split; [constructor | exact I]. }
  destruct stk; [|discriminate]. destruct m; try discriminate.
  intros E; inversion E; subst. apply H.
Qed.

Lemma find_field_In {T : Type} (fs : fields T) key d :
  find_field fs key = Some d -> exists name, In (name, d) fs.
Proof.
  induction fs as [|[name d'] fs IH]; simpl; [discriminate|].
  destruct (key_matches name key).
  - intros H; inversion H; subst. exists name. now left.
  - intros H. destruct (IH H) as [n Hn]. exists n. now right.
Qed.

(** A property of a struct that every field decoder keeps, on well-formed
    values, is kept by decoding a whole object. *)
Lemma decode_members_keeps {T : Type} (P : T -> Prop) (fs : fields T) :
  Forall (fun nd => forall v t, value_ok v -> P t -> P (fst (snd nd v t))) fs ->
  forall ms t, Forall member_ok ms -> P t -> P (fst (decode_members fs ms t)).
Proof.
  intros Hfs. induction ms as [|[k v] ms IH]; intros t Hms Pt; simpl.
  - exact Pt.
  - inversion Hms; subst.
    destruct (find_field fs k) as [d|] eqn:F.
    + destruct (d v t) as [t1 e1] eqn:D.
      specialize (IH t1). destruct (decode_members fs ms t1) as [t2 e2].
      simpl in *. apply IH; [assumption|].
      destruct (find_field_In _ _ _ F) as [name Hin].
      rewrite Forall_forall in Hfs. specialize (Hfs _ Hin v t).
      simpl in Hfs. rewrite D in Hfs. apply Hfs; assumption.
    + specialize (IH t). destruct (decode_members fs ms t) as [t2 e2].
      simpl in *. apply IH; assumption.
Qed.

Lemma decode_struct_keeps {T : Type} (P : T -> Prop) (fs : fields T) :
  Forall (fun nd => forall v t, value_ok v -> P t -> P (fst (snd nd v t))) fs ->
  forall v t, value_ok v -> P t -> P (fst (decode_struct fs v t)).
Proof.
  intros Hfs v t Hv Pt. unfold decode_struct.
  destruct v; try exact Pt.
  apply decode_members_keeps; try assumption.
  apply value_ok_Object, Hv.
Qed.

Lemma Unmarshal_keeps {T : Type} (P : T -> Prop) (fs : fields T) :
  Forall (fun nd => forall v t, value_ok v -> P t -> P (fst (snd nd v t))) fs ->
  forall data t, P t -> P (fst (Unmarshal fs data t)).
Proof.
  intros Hfs data t Pt. unfold Unmarshal.
  destruct (parse data) as [v|] eqn:E; [|exact Pt].
  apply decode_struct_keeps; try assumption.
  eapply parse_ok, E.
Qed.

End JsonFacts.

(** ** The exporter *)

Section ExporterFacts.

Import utf8 strconv json prometheus exporter wf spec.

Variable device : Device.

(** *** What the methods leave of the state *)

Lemma keeps_self_ret {A : Type} (a : A) : keeps_self (ret a).
Proof. intros st. reflexivity. Qed.

Lemma keeps_self_bind {A B : Type} (m : M A) (k : A -> M B) :
  keeps_self m -> (forall a, keeps_self (k a)) -> keeps_self (bind m k).
Proof.
  intros Hm Hk st. unfold bind. specialize (Hm st).
  destruct (m st) as [a st1]. simpl in Hm. rewrite <- Hm. apply Hk.
Qed.

Lemma keeps_self_log l msg : keeps_self (log l msg).
Proof. intros st. reflexivity. Qed.

Lemma keeps_self_get_hostname : keeps_self get_hostname.
Proof. intros st. reflexivity. Qed.

Lemma keeps_self_http_Get uri : keeps_self (http_Get device uri).
Proof. intros st. reflexivity. Qed.

Ltac frame :=
  repeat first
    [ assumption
    | match goal with H : _ |- _ => apply H end
    | apply keeps_self_ret | apply keeps_self_log
    | apply keeps_self_get_hostname | apply keeps_self_http_Get
    | apply keeps_self_bind; [|intros ?]
    | match goal with
      | |- keeps_self (match ?x with _ => _ end) => destruct x
      | |- keeps_self (let '(_, _) := ?x in _) => destruct x
      end ].

Lemma keeps_self_GetMetrics : keeps_self (GetMetrics device).
Proof. unfold GetMetrics. frame. Qed.

Lemma keeps_self_GetConfig : keeps_self (GetConfig device).
Proof. unfold GetConfig. frame. Qed.


(** *** One fetch *)

Lemma GetMetrics_state st :
  snd (GetMetrics device st)
  = {| self := self st;
       requests := requests st ++ [metrics_uri (hostname (self st))];
       logs := logs st
               ++ [(DebugLevel,
                    "Attempting to retrieve metrics from Awair device.")] |}.
Proof.
  unfold GetMetrics, bind, get_hostname, log, http_Get, ret. simpl.
  destruct (device _ _) as [r|d]; [|reflexivity].
  destruct (ReadAll (Body r)) as [data|e]; [|reflexivity].
  destruct (Unmarshal _ _ _) as [v [e|]]; reflexivity.
Qed.

Lemma GetConfig_state st :
  snd (GetConfig device st)
  = {| self := self st;
       requests := requests st ++ [config_uri (hostname (self st))];
       logs := logs st
               ++ [(DebugLevel,
                    "Attempting to retrieve config from Awair device.")] |}.
Proof.
  unfold GetConfig, bind, get_hostname, log, http_Get, ret. simpl.
  destruct (device _ _) as [r|d]; [|reflexivity].
  destruct (ReadAll (Body r)) as [data|e]; [|reflexivity].
  destruct (Unmarshal _ _ _) as [v [e|]]; reflexivity.
Qed.

(** What a fetch returns, from the device's answer. *)
Lemma GetMetrics_result st :
  fst (GetMetrics device st)
  = match device (requests st) (metrics_uri (hostname (self st))) with
    | Refuses d => (None, Some (UrlError d))
    | Responds r =>
      match Body r with
      | Broken d => (None, Some (ReadError d))
      | Bytes data =>
        match Unmarshal AwairValues_fields data zero_AwairValues with
        | (_, Some e) => (None, Some e)
        | (v, None) => (Some v, None)
        end
      end
    end.
Proof.
  unfold GetMetrics, bind, get_hostname, log, http_Get, ret. simpl.
  destruct (device _ _) as [r|d]; [|reflexivity].
  destruct (Body r) as [data|d]; simpl; [|reflexivity].
  destruct (Unmarshal _ _ _) as [v [e|]]; reflexivity.
Qed.

Lemma GetConfig_result st :
  fst (GetConfig device st)
  = match device (requests st) (config_uri (hostname (self st))) with
    | Refuses d => (None, Some (UrlError d))
    | Responds r =>
      match Body r with
      | Broken d => (None, Some (ReadError d))
      | Bytes data =>
        match Unmarshal ConfigResponse_fields data zero_ConfigResponse with
        | (_, Some e) => (None, Some e)
        | (c, None) => (Some c, None)
        end
      end
    end.
Proof.
  unfold GetConfig, bind, get_hostname, log, http_Get, ret. simpl.
  destruct (device _ _) as [r|d]; [|reflexivity].
  destruct (Body r) as [data|d]; simpl; [|reflexivity].
  destruct (Unmarshal _ _ _) as [v [e|]]; reflexivity.
Qed.

(** A fetch returns a value or an error, never both and never neither. *)
Lemma GetMetrics_value_xor_error st :
  (exists v, fst (GetMetrics device st) = (Some v, None))
  \/ (exists e, fst (GetMetrics device st) = (None, Some e)).
Proof.
  rewrite GetMetrics_result.
  destruct (device _ _) as [r|d]; [|right; eauto].
  destruct (Body r) as [data|d]; [|right; eauto].
  destruct (Unmarshal _ _ _) as [v [e|]]; [right|left]; eauto.
Qed.

Lemma GetConfig_value_xor_error st :
  (exists c, fst (GetConfig device st) = (Some c, None))
  \/ (exists e, fst (GetConfig device st) = (None, Some e)).
Proof.
  rewrite GetConfig_result.
  destruct (device _ _) as [r|d]; [|right; eauto].
  destruct (Body r) as [data|d]; [|right; eauto].
  destruct (Unmarshal _ _ _) as [v [e|]]; [right|left]; eauto.
Qed.

(** *** The label values are valid UTF-8 *)

Lemma labels_ok_zero : labels_ok zero_ConfigResponse.
Proof. split; constructor. Qed.

Lemma decode_LED_labels v c :
  labels_ok c -> labels_ok (fst (decode_LED v c)).
Proof.
  unfold decode_LED. destruct (decode_struct _ _ _) as [l e]. simpl.
  intros H; exact H.
Qed.

Lemma ConfigResponse_fields_labels :
  Forall (fun nd => forall v t,
            value_ok v -> labels_ok t -> labels_ok (fst (snd nd v t)))
    ConfigResponse_fields.
Proof.
  unfold ConfigResponse_fields.
  repeat (apply Forall_cons; [|]); try apply Forall_nil;
  intros v t Hv [H1 H2]; simpl;
  try (apply decode_LED_labels; split; assumption);
  unfold into;
  match goal with
  | |- context [as_string v] =>
    destruct v; simpl; try (split; assumption)
  | |- context [as_int v] =>
    destruct v; simpl; try (split; assumption);
    match goal with
    | |- context [ParseInt ?d] => destruct (ParseInt d); simpl; split; assumption
    end
  end.
Qed.

Lemma GetConfig_labels st c e :
  fst (GetConfig device st) = (Some c, e) -> labels_ok c.
Proof.
  rewrite GetConfig_result.
  destruct (device _ _) as [r|d]; [|discriminate].
  destruct (Body r) as [data|d]; [|discriminate].
  pose proof (Unmarshal_keeps labels_ok ConfigResponse_fields
                ConfigResponse_fields_labels data zero_ConfigResponse
                labels_ok_zero) as H.
  destruct (Unmarshal _ _ _) as [c' [e'|]]; [discriminate|].
  intros E; inversion E; subst. exact H.
Qed.

Lemma WellFormed_digits d : WellFormed (NilEmpty.string_of_uint d).
Proof.
  induction d; simpl; try constructor;
  (apply WellFormed_ascii; [reflexivity | assumption]).
Qed.

Lemma WellFormed_Itoa i : WellFormed (Itoa i).
Proof.
  unfold Itoa, NilZero.string_of_int, NilZero.string_of_uint.
  destruct (Z.to_int i) as [d|d].
  - destruct d; try apply WellFormed_digits.
    apply WellFormed_ascii; [reflexivity | constructor].
  - apply WellFormed_ascii; [reflexivity|].
    destruct d; try apply WellFormed_digits.
    apply WellFormed_ascii; [reflexivity | constructor].
Qed.

(** *** The emission phase *)

Lemma MustNewConstMetric_ok d vt x labels :
  err d = None ->
  List.length labels = List.length (variableLabels d) ->
  Forall WellFormed labels ->
  MustNewConstMetric d vt x labels
  = inr {| desc := d; valueType := vt; value := x; labelValues := labels |}.
Proof.
  intros He Hn Hl. unfold MustNewConstMetric, validateLabelValues.
  rewrite He, Hn, Nat.eqb_refl. simpl.
  replace (forallb ValidString labels) with true; [reflexivity|].
  symmetry. apply forallb_forall. rewrite Forall_forall in Hl.
  intros l Hin. apply WellFormed_valid, Hl, Hin.
Qed.

Lemma gauge_ok d field v c :
  err d = None -> variableLabels d = ["device_uuid"] -> labels_ok c ->
  gauge d field (Some v) (Some c)
  = inr (observation d (field v) [DeviceUUID c]).
Proof.
  intros He Hv [H1 _]. unfold gauge. simpl.
  apply MustNewConstMetric_ok; [exact He | now rewrite Hv |].
  constructor; [exact H1 | constructor].
Qed.

Lemma device_info_ok values c :
  labels_ok c ->
  device_info values (Some c)
  = inr (observation info (float64_of_Z 1)
           [DeviceUUID c; FirmwareVersion c; Itoa (VocFeatureSet c)]).
Proof.
  intros [H1 H2]. unfold device_info. simpl.
  apply MustNewConstMetric_ok; [reflexivity | reflexivity |].
  repeat constructor; try assumption. apply WellFormed_Itoa.
Qed.

(** With both records at hand the fifteen statements send the snapshot. *)
Lemma emit_both v c :
  labels_ok c ->
  emit statements (Some v) (Some c) []
  = {| sent := snapshot v c; panicked := None |}.
Proof.
  intros Hc. unfold statements. cbn [emit].
  rewrite !gauge_ok by (reflexivity || exact Hc).
  rewrite device_info_ok by exact Hc.
  reflexivity.
Qed.

(** With a nil pointer the first statement panics before it sends. *)
Lemma emit_nil values config :
  values = None \/ config = None ->
  emit statements values config []
  = {| sent := []; panicked := Some NilDereference |}.
Proof.
  intros [-> | ->]; [reflexivity|].
  destruct values; reflexivity.
Qed.


(** *** Fields an object does not mention *)

Lemma find_field_matches {T : Type} (fs : fields T) key d :
  find_field fs key = Some d ->
  exists name, In (name, d) fs /\ key_matches name key = true.
Proof.
  induction fs as [|[name d'] fs IH]; simpl; [discriminate|].
  destruct (key_matches name key) eqn:K.
  - intros H; inversion H; subst. exists name. split; [now left | exact K].
  - intros H. destruct (IH H) as (n & Hn & Hk). exists n. split; [now right | exact Hk].
Qed.

(** A field keeps its value when no key selects it, provided the decoders
    of the other fields leave it alone. *)
Lemma decode_members_missing {T A : Type} (get : T -> A) (name : string)
  (fs : fields T) :
  Forall (fun nd => fst nd = name
                    \/ forall v t, get (fst (snd nd v t)) = get t) fs ->
  forall ms t, missing name ms ->
  get (fst (decode_members fs ms t)) = get t.
Proof.
  intros Hfs. induction ms as [|[k v] ms IH]; intros t Hms; simpl.
  - reflexivity.
  - assert (Hms' : missing name ms).
    { intros k' v' Hin. apply (Hms k' v'). now right. }
    assert (Hk : key_matches name k = false).
    { apply (Hms k v). now left. }
    destruct (find_field fs k) as [d|] eqn:F.
    + destruct (d v t) as [t1 e1] eqn:D.
      specialize (IH t1 Hms'). destruct (decode_members fs ms t1) as [t2 e2].
      simpl in *. rewrite IH.
      destruct (find_field_matches _ _ _ F) as (n & Hin & Hn).
      rewrite Forall_forall in Hfs. destruct (Hfs _ Hin) as [E|E].
      * simpl in E. subst n. congruence.
      * specialize (E v t). simpl in E. now rewrite D in E.
    + specialize (IH t Hms'). destruct (decode_members fs ms t) as [t2 e2].
      exact IH.
Qed.

Lemma AwairValues_fields_separate :
  Forall (fun ng =>
            Forall (fun nd => fst nd = fst ng
                              \/ forall v t,
                                   snd ng (fst (snd nd v t)) = snd ng t)
              AwairValues_fields)
    AwairValues_getters.
Proof.
  unfold AwairValues_getters, AwairValues_fields.
  repeat (apply Forall_cons; [|]); try apply Forall_nil; simpl;
  first [ left; reflexivity
        | right; intros v t; unfold into; destruct (as_float64 v); reflexivity ].
Qed.

Lemma ConfigResponse_fields_separate :
  Forall (fun ng =>
            Forall (fun nd => fst nd = fst ng
                              \/ forall v t,
                                   snd ng (fst (snd nd v t)) = snd ng t)
              ConfigResponse_fields)
    ConfigResponse_getters.
Proof.
  unfold ConfigResponse_getters, ConfigResponse_fields.
  repeat (apply Forall_cons; [|]); try apply Forall_nil; simpl;
  first [ left; reflexivity
        | right; intros v t; unfold into; destruct (as_string v); reflexivity
        | right; intros v t; unfold into; destruct (as_int v); reflexivity
        | right; intros v t; unfold decode_LED;
          destruct (decode_struct LEDSettings_fields v (LED t)); reflexivity ].
Qed.

Lemma VocFeatureSet_separate :
  Forall (fun nd => fst nd = "voc_feature_set"
                    \/ forall v t,
                         VocFeatureSet (fst (snd nd v t)) = VocFeatureSet t)
    ConfigResponse_fields.
Proof.
  unfold ConfigResponse_fields.
  repeat (apply Forall_cons; [|]); try apply Forall_nil; simpl;
  first [ left; reflexivity
        | right; intros v t; unfold into; destruct (as_string v); reflexivity
        | right; intros v t; unfold decode_LED;
          destruct (decode_struct LEDSettings_fields v (LED t)); reflexivity ].
Qed.

(** *** The two goroutines *)

Lemma fetch_values_result x st :
  fst (fetch_values device x st) = fst (GetMetrics device st).
Proof.
  unfold fetch_values, bind, log, ret.
  destruct (GetMetrics device st) as [[v [e|]] st1]; reflexivity.
Qed.

Lemma fetch_config_result x st :
  fst (fetch_config device x st) = fst (GetConfig device st).
Proof.
  unfold fetch_config, bind, log, ret.
  destruct (GetConfig device st) as [[v [e|]] st1]; reflexivity.
Qed.

Lemma keeps_self_fetch_values x : keeps_self (fetch_values device x).
Proof. unfold fetch_values. pose proof keeps_self_GetMetrics. frame. Qed.

Lemma keeps_self_fetch_config x : keeps_self (fetch_config device x).
Proof. unfold fetch_config. pose proof keeps_self_GetConfig. frame. Qed.

Lemma keeps_self_fetch_both sched x y :
  keeps_self (fetch_both device sched x y).
Proof.
  unfold fetch_both.
  pose proof keeps_self_fetch_values. pose proof keeps_self_fetch_config.
  destruct sched; frame.
Qed.

Lemma keeps_self_Collect sched : keeps_self (Collect device sched).
Proof.
  unfold Collect. pose proof keeps_self_fetch_both.
  apply keeps_self_bind; [auto|].
  intros [[v e1] [c e2]]. apply keeps_self_ret.
Qed.

Lemma keeps_self_Describe : keeps_self Describe.
Proof. apply keeps_self_ret. Qed.

(** Whatever the schedule, each goroutine's result is that of its fetch,
    made by the same exporter. *)
Lemma fetched_results sched st :
  exists st1 st2,
    self st1 = self st /\ self st2 = self st
    /\ fetched device sched st
       = (fst (GetMetrics device st1), fst (GetConfig device st2)).
Proof.
  unfold fetched, fetch_both, bind, ret. destruct sched.
  - pose proof (fetch_values_result (Some zero_AwairValues) st) as Hv.
    pose proof (keeps_self_fetch_values (Some zero_AwairValues) st) as Hs.
    destruct (fetch_values device _ st) as [rv st1]. simpl in Hv, Hs.
    pose proof (fetch_config_result (Some zero_ConfigResponse) st1) as Hc.
    destruct (fetch_config device _ st1) as [rc st2]. simpl in Hc.
    exists st, st1. simpl. subst. auto.
  - pose proof (fetch_config_result (Some zero_ConfigResponse) st) as Hc.
    pose proof (keeps_self_fetch_config (Some zero_ConfigResponse) st) as Hs.
    destruct (fetch_config device _ st) as [rc st1]. simpl in Hc, Hs.
    pose proof (fetch_values_result (Some zero_AwairValues) st1) as Hv.
    destruct (fetch_values device _ st1) as [rv st2]. simpl in Hv.
    exists st1, st. simpl. subst. auto.
Qed.

(** Each goroutine ends with a record and no error, or with a nil pointer
    and an error. *)
Lemma fetched_outcomes sched st :
  ((exists v, fst (fetched device sched st) = (Some v, None))
   \/ (exists e, fst (fetched device sched st) = (None, Some e)))
  /\ ((exists c, snd (fetched device sched st) = (Some c, None)
                 /\ labels_ok c)
      \/ (exists e, snd (fetched device sched st) = (None, Some e))).
Proof.
  destruct (fetched_results sched st) as (st1 & st2 & _ & _ & E).
  rewrite E. simpl. split.
  - apply GetMetrics_value_xor_error.
  - destruct (GetConfig_value_xor_error st2) as [[c Hc]|[e He]].
    + left. exists c. split; [exact Hc|]. eapply GetConfig_labels, Hc.
    + right. eauto.
Qed.

Lemma fetch_values_state x st :
  snd (fetch_values device x st)
  = {| self := self st;
       requests := requests st ++ [metrics_uri (hostname (self st))];
       logs := logs (snd (fetch_values device x st)) |}.
Proof.
  unfold fetch_values, bind, log, ret.
  pose proof (GetMetrics_state st) as Hs.
  destruct (GetMetrics device st) as [[v [e|]] st1]; simpl in *;
    rewrite Hs; reflexivity.
Qed.

Lemma fetch_config_state x st :
  snd (fetch_config device x st)
  = {| self := self st;
       requests := requests st ++ [config_uri (hostname (self st))];
       logs := logs (snd (fetch_config device x st)) |}.
Proof.
  unfold fetch_config, bind, log, ret.
  pose proof (GetConfig_state st) as Hs.
  destruct (GetConfig device st) as [[v [e|]] st1]; simpl in *;
    rewrite Hs; reflexivity.
Qed.

(** [Collect] is the emission phase run on what the goroutines left. *)
Lemma Collect_emit sched st :
  fst (Collect device sched st)
  = emit statements (fst (fst (fetched device sched st)))
      (fst (snd (fetched device sched st))) [].
Proof.
  unfold Collect, fetched, bind, ret.
  destruct (fetch_both device sched _ _ st) as [[[v e1] [c e2]] st'].
  reflexivity.
Qed.

End ExporterFacts.

(** ** The claims about the collector *)

Import utf8 strconv json prometheus exporter wf spec.

Lemma readings_body_decodes :
  Unmarshal AwairValues_fields readings_body zero_AwairValues
  = (sample_readings, None).
Proof. vm_compute. reflexivity. Qed.

Lemma config_body_decodes :
  Unmarshal ConfigResponse_fields config_body zero_ConfigResponse
  = (sample_config, None).
Proof. vm_compute. reflexivity. Qed.

(** C1 (a defect of the code). When exactly one of the two fetches of a
    collection fails, the goroutine of the failed fetch leaves a nil pointer
    in its variable, not a zero-valued record, and [Collect] sends no metric
    at all: its first statement panics on the nil pointer. *)
Theorem Collect_one_fetch_failed device sched st :
  (readings_err device sched st <> None /\ config_err device sched st = None)
  \/ (readings_err device sched st = None
      /\ config_err device sched st <> None) ->
  (readings_err device sched st <> None ->
   fst (fst (fetched device sched st)) = None)
  /\ (config_err device sched st <> None ->
      fst (snd (fetched device sched st)) = None)
  /\ fst (Collect device sched st)
     = {| sent := []; panicked := Some NilDereference |}.
Proof.
  intros H. rewrite Collect_emit. unfold readings_err, config_err in *.
  destruct (fetched_outcomes device sched st) as [Hv Hc].
  destruct Hv as [[v Ev]|[e Ev]], Hc as [[c [Ec _]]|[e' Ec]];
    rewrite Ev, Ec in *; simpl in *.
  - destruct H as [[H _]|[_ H]]; congruence.
  - repeat split; try reflexivity. congruence.
  - repeat split; try reflexivity. congruence.
  - destruct H as [[_ H]|[H _]]; congruence.
Qed.

(** The panic of C1 at a device whose readings cannot be fetched while its
    configuration can. *)
Lemma Collect_one_fetch_failed_witness :
  ((readings_err readings_down MetricsFirst fresh <> None
    /\ config_err readings_down MetricsFirst fresh = None)
   \/ (readings_err readings_down MetricsFirst fresh = None
       /\ config_err readings_down MetricsFirst fresh <> None))
  /\ fst (Collect readings_down MetricsFirst fresh)
     = {| sent := []; panicked := Some NilDereference |}.
Proof.
  assert (H : (readings_err readings_down MetricsFirst fresh <> None
               /\ config_err readings_down MetricsFirst fresh = None)
              \/ (readings_err readings_down MetricsFirst fresh = None
                  /\ config_err readings_down MetricsFirst fresh <> None)).
  { left. split; [vm_compute; discriminate | vm_compute; reflexivity]. }
  split; [exact H|].
  apply (Collect_one_fetch_failed readings_down MetricsFirst fresh H).
Defined.

(** C2 (a defect of the code). The emission phase of [Collect] runs to its
    end exactly when both fetches succeeded; after any failed fetch it
    panics. At a device that cannot be reached the collection panics before
    it has sent anything. *)
Theorem Collect_completes_iff_fetches_succeed :
  (forall device sched st,
     panicked (fst (Collect device sched st)) = None
     <-> (readings_err device sched st = None
          /\ config_err device sched st = None))
  /\ (forall sched,
        fst (Collect unreachable sched fresh)
        = {| sent := []; panicked := Some NilDereference |}).
Proof.
  split.
  - intros device sched st.
    rewrite Collect_emit. unfold readings_err, config_err.
    destruct (fetched_outcomes device sched st) as [Hv Hc].
    destruct Hv as [[v Ev]|[e Ev]], Hc as [[c [Ec Hl]]|[e' Ec]];
      rewrite Ev, Ec; simpl fst; simpl snd.
    + rewrite emit_both by exact Hl. simpl. tauto.
    + rewrite emit_nil by (now right). simpl. split; [discriminate|].
      intros [_ H]; discriminate.
    + rewrite emit_nil by (now left). simpl. split; [discriminate|].
      intros [H _]; discriminate.
    + rewrite emit_nil by (now left). simpl. split; [discriminate|].
      intros [H _]; discriminate.
  - intros sched. destruct sched; vm_compute; reflexivity.
Qed.

(** C3, as the spec states it, fails: a collection whose two fetches
    succeed sends fifteen observations, not fourteen. *)
Lemma Collect_healthy_not_fourteen :
  readings_err healthy MetricsFirst fresh = None
  /\ config_err healthy MetricsFirst fresh = None
  /\ List.length (sent (fst (Collect healthy MetricsFirst fresh))) <> 14%nat.
Proof. vm_compute. repeat split; discriminate. Qed.

(** C3 (amended). When both fetches of a collection succeed, [Collect]
    sends exactly fifteen observations in a fixed order and does not panic:
    the fourteen numeric gauges, each with the value of its Readings field
    and the configuration's device identifier as its label, then the
    informational gauge with value 1 and the labels device identifier,
    firmware version and feature-set code in decimal. *)
Theorem Collect_sends_snapshot device sched st :
  readings_err device sched st = None ->
  config_err device sched st = None ->
  exists v c,
    fetched device sched st = ((Some v, None), (Some c, None))
    /\ fst (Collect device sched st)
       = {| sent := snapshot v c; panicked := None |}
    /\ List.length (snapshot v c) = 15%nat.
Proof.
  unfold readings_err, config_err. intros H1 H2. rewrite Collect_emit.
  destruct (fetched_outcomes device sched st) as [Hv Hc].
  destruct Hv as [[v Ev]|[e Ev]]; [|rewrite Ev in H1; discriminate].
  destruct Hc as [[c [Ec Hl]]|[e Ec]]; [|rewrite Ec in H2; discriminate].
  exists v, c. rewrite Ev, Ec. simpl fst.
  split; [|split].
  - destruct (fetched device sched st) as [a b]. simpl in *. congruence.
  - apply emit_both, Hl.
  - reflexivity.
Qed.

(** The snapshot of C3 at a device that serves both resources. *)
Lemma Collect_sends_snapshot_witness :
  readings_err healthy ConfigFirst fresh = None
  /\ config_err healthy ConfigFirst fresh = None
  /\ exists v c,
       fetched healthy ConfigFirst fresh = ((Some v, None), (Some c, None))
       /\ fst (Collect healthy ConfigFirst fresh)
          = {| sent := snapshot v c; panicked := None |}
       /\ List.length (snapshot v c) = 15%nat.
Proof.
  assert (H1 : readings_err healthy ConfigFirst fresh = None)
    by (vm_compute; reflexivity).
  assert (H2 : config_err healthy ConfigFirst fresh = None)
    by (vm_compute; reflexivity).
  split; [exact H1|]. split; [exact H2|].
  apply (Collect_sends_snapshot healthy ConfigFirst fresh H1 H2).
Defined.

(** C4. [NewAwairExporter] sends exactly one request, the configuration
    fetch for the given host; it returns the error of that fetch, no
    exporter when the fetch failed, and the exporter of the given host when
    it succeeded. *)
Theorem NewAwairExporter_one_config_fetch device host reqs lg :
  let first_fetch :=
    fst (GetConfig device
           {| self := {| hostname := host |}; requests := reqs; logs := lg |})
  in
  let made := NewAwairExporter device host reqs lg in
  requests (snd made) = (reqs ++ [config_uri host])%list
  /\ snd (fst made) = snd first_fetch
  /\ (snd first_fetch <> None <-> fst (fst made) = None)
  /\ (snd first_fetch = None <->
      fst (fst made) = Some {| hostname := host |}).
Proof.
  intros first_fetch made. subst first_fetch made. unfold NewAwairExporter.
  pose proof (GetConfig_state device
    {| self := {| hostname := host |}; requests := reqs; logs := lg |}) as Hs.
  pose proof (GetConfig_value_xor_error device
    {| self := {| hostname := host |}; requests := reqs; logs := lg |}) as Hr.
  destruct (GetConfig device _) as [[c e] st1]. simpl in Hs, Hr. subst st1.
  destruct Hr as [[c' E]|[e' E]]; inversion E; subst; simpl.
  - repeat split; try reflexivity; try congruence.
  - repeat split; try reflexivity; try congruence; discriminate.
Qed.

(** C5. With the readings body and the configuration body of the spec,
    a collection exposes [awair_score] at 85 and [awair_co2] at 612, both
    labelled with the device identifier, and [awair_device_info] at 1 with
    the identifier, the firmware version and the feature set as labels. *)
Theorem Collect_literal_bodies device sched st s1 s2 :
  (forall h, device h (metrics_uri (hostname (self st)))
             = Responds {| StatusCode := s1; Body := Bytes readings_body |}) ->
  (forall h, device h (config_uri (hostname (self st)))
             = Responds {| StatusCode := s2; Body := Bytes config_body |}) ->
  let out := fst (Collect device sched st) in
  panicked out = None
  /\ exposes out "awair_score" [("device_uuid", "awair-123")]
       (float64_of_Z 85)
  /\ exposes out "awair_co2" [("device_uuid", "awair-123")]
       (float64_of_Z 612)
  /\ exposes out "awair_device_info"
       [("device_uuid", "awair-123"); ("firmware_version", "1.2.3");
        ("voc_feature_set", "3")]
       (float64_of_Z 1).
Proof.
  intros Hr Hc out. subst out. rewrite Collect_emit.
  destruct (fetched_results device sched st) as (st1 & st2 & E1 & E2 & E).
  rewrite E. simpl fst. simpl snd.
  rewrite GetMetrics_result, GetConfig_result, E1, E2, Hr, Hc. cbn [Body].
  rewrite readings_body_decodes, config_body_decodes. simpl fst.
  rewrite emit_both by (split; vm_compute;
    repeat (apply WellFormed_ascii; [reflexivity|]); constructor).
  split; [reflexivity|].
  repeat split; eexists; (split; [|repeat split]).
  1: left; reflexivity. 1-4: reflexivity.
  1: do 5 right; left; reflexivity. 1-4: reflexivity.
  1: do 14 right; left; reflexivity. all: reflexivity.
Qed.

(** The score sample of C5 at a device that serves both bodies with
    status 200. *)
Lemma Collect_literal_bodies_witness :
  (forall h, healthy h (metrics_uri (hostname (self fresh)))
             = Responds {| StatusCode := 200; Body := Bytes readings_body |})
  /\ (forall h, healthy h (config_uri (hostname (self fresh)))
                = Responds {| StatusCode := 200; Body := Bytes config_body |})
  /\ exposes (fst (Collect healthy MetricsFirst fresh)) "awair_score"
       [("device_uuid", "awair-123")] (float64_of_Z 85).
Proof.
  assert (H1 : forall h, healthy h (metrics_uri (hostname (self fresh)))
             = Responds {| StatusCode := 200; Body := Bytes readings_body |})
    by (intros h; reflexivity).
  assert (H2 : forall h, healthy h (config_uri (hostname (self fresh)))
             = Responds {| StatusCode := 200; Body := Bytes config_body |})
    by (intros h; reflexivity).
  split; [exact H1|]. split; [exact H2|].
  apply (Collect_literal_bodies healthy MetricsFirst fresh 200 200 H1 H2).
Defined.

(** C7, as the spec states it, fails: [Describe] sends fifteen descriptors,
    not fourteen. *)
Lemma Describe_not_fourteen :
  List.length (fst (Describe fresh)) <> 14%nat.
Proof. vm_compute. discriminate. Qed.

(** C7 (amended). Whatever the state, [Describe] sends the same fifteen
    descriptors and changes nothing: the fourteen numeric ones carry the one
    label [device_uuid], the last, informational one carries the three labels
    [device_uuid], [firmware_version] and [voc_feature_set], and none of them
    carries an error. *)
Theorem Describe_fifteen_descriptors st :
  snd (Describe st) = st
  /\ map signature (fst (Describe st))
     = [ ("awair_score", ["device_uuid"]);
         ("awair_dew_point", ["device_uuid"]);
         ("awair_temp", ["device_uuid"]);
         ("awair_humidity", ["device_uuid"]);
         ("awair_absolute_humidity", ["device_uuid"]);
         ("awair_co2", ["device_uuid"]);
         ("awair_co2_est", ["device_uuid"]);
         ("awair_co2_est_baseline", ["device_uuid"]);
         ("awair_voc", ["device_uuid"]);
         ("awair_voc_baseline", ["device_uuid"]);
         ("awair_voc_h2_raw", ["device_uuid"]);
         ("awair_voc_ethanol_raw", ["device_uuid"]);
         ("awair_pm25", ["device_uuid"]);
         ("awair_pm10", ["device_uuid"]);
         ("awair_device_info",
          ["device_uuid"; "firmware_version"; "voc_feature_set"]) ]
  /\ Forall (fun d => variableLabels d = ["device_uuid"])
       (removelast (fst (Describe st)))
  /\ variableLabels (last (fst (Describe st)) score)
     = ["device_uuid"; "firmware_version"; "voc_feature_set"]
  /\ Forall (fun d => err d = None) (fst (Describe st)).
Proof.
  unfold Describe, ret. cbn [fst snd].
  split; [reflexivity|]. split; [reflexivity|].
  split; [|split; [reflexivity|]]; repeat constructor.
Qed.

(** C9. Neither fetch looks at the status code. Whatever the status of the
    response, a body that decodes without error is returned as the result,
    with no error; and a field that no key of the body's object selects has
    its zero value in it. *)
Theorem fetch_ignores_status device st r data :
  Body r = Bytes data ->
  (device (requests st) (metrics_uri (hostname (self st))) = Responds r ->
   forall v,
     Unmarshal AwairValues_fields data zero_AwairValues = (v, None) ->
     fst (GetMetrics device st) = (Some v, None))
  /\ (device (requests st) (config_uri (hostname (self st))) = Responds r ->
      forall c,
        Unmarshal ConfigResponse_fields data zero_ConfigResponse = (c, None) ->
        fst (GetConfig device st) = (Some c, None))
  /\ (forall ms, parse data = Some (Object ms) ->
      (forall name get, In (name, get) AwairValues_getters ->
         missing name ms ->
         get (fst (Unmarshal AwairValues_fields data zero_AwairValues))
         = zero_float64)
      /\ (forall name get, In (name, get) ConfigResponse_getters ->
            missing name ms ->
            get (fst (Unmarshal ConfigResponse_fields data
                        zero_ConfigResponse))
            = ""%string)
      /\ (missing "voc_feature_set" ms ->
          VocFeatureSet
            (fst (Unmarshal ConfigResponse_fields data zero_ConfigResponse))
          = 0%Z)).
Proof.
  intros Hb. split; [|split].
  - intros Hd v Hv. rewrite GetMetrics_result, Hd, Hb, Hv. reflexivity.
  - intros Hd c Hc. rewrite GetConfig_result, Hd, Hb, Hc. reflexivity.
  - intros ms Hp. unfold Unmarshal. rewrite Hp. cbn [decode_struct].
    split; [|split].
    + intros name get Hin Hm.
      pose proof AwairValues_fields_separate as Hs.
      rewrite Forall_forall in Hs. specialize (Hs _ Hin). cbn [fst snd] in Hs.
      rewrite (decode_members_missing get name _ Hs ms _ Hm).
      unfold AwairValues_getters in Hin. cbn [In] in Hin.
      repeat (destruct Hin as [Hin|Hin];
              [inversion Hin; subst; reflexivity|]).
      contradiction.
    + intros name get Hin Hm.
      pose proof ConfigResponse_fields_separate as Hs.
      rewrite Forall_forall in Hs. specialize (Hs _ Hin). cbn [fst snd] in Hs.
      rewrite (decode_members_missing get name _ Hs ms _ Hm).
      unfold ConfigResponse_getters in Hin. cbn [In] in Hin.
      repeat (destruct Hin as [Hin|Hin];
              [inversion Hin; subst; reflexivity|]).
      contradiction.
    + intros Hm.
      rewrite (decode_members_missing VocFeatureSet "voc_feature_set" _
                 VocFeatureSet_separate ms _ Hm).
      reflexivity.
Qed.

(** The fetches of C9 at a device that answers with status 500 and an
    empty object: both succeed, with zero-valued records. *)
Lemma fetch_ignores_status_witness :
  Body {| StatusCode := 500; Body := Bytes "{}" |} = Bytes "{}"
  /\ fst (GetMetrics failing500 fresh) = (Some zero_AwairValues, None)
  /\ fst (GetConfig failing500 fresh) = (Some zero_ConfigResponse, None).
Proof.
  assert (Hb : Body {| StatusCode := 500; Body := Bytes "{}" |} = Bytes "{}")
    by reflexivity.
  pose proof (fetch_ignores_status failing500 fresh _ _ Hb) as [H1 [H2 _]].
  split; [exact Hb|]. split.
  - apply H1; [reflexivity | vm_compute; reflexivity].
  - apply H2; [reflexivity | vm_compute; reflexivity].
Defined.

(** C10. An exporter is its host name and nothing else. The exporter that
    [NewAwairExporter] makes has the given host name, and after any sequence
    of [Describe], [Collect], [GetMetrics] and [GetConfig], from any state,
    the exporter is the one it was. *)
Theorem hostname_never_modified device host reqs lg ops :
  let made := NewAwairExporter device host reqs lg in
  (forall e e' : AwairExporter, hostname e = hostname e' -> e = e')
  /\ (forall ex, fst (fst made) = Some ex ->
        hostname ex = host /\ self (snd made) = ex)
  /\ hostname (self (run_ops device ops (snd made))) = host
  /\ (forall st, self (run_ops device ops st) = self st).
Proof.
  intros made.
  assert (Hops : forall st, self (run_ops device ops st) = self st).
  { unfold run_ops. induction ops as [|op ops' IH]; intros st; simpl.
    - reflexivity.
    - rewrite IH. destruct op; simpl.
      + apply keeps_self_Describe.
      + apply keeps_self_Collect.
      + apply keeps_self_GetMetrics.
      + apply keeps_self_GetConfig. }
  assert (Hmade : self (snd made) = {| hostname := host |}).
  { subst made. unfold NewAwairExporter.
    pose proof (keeps_self_GetConfig device
      {| self := {| hostname := host |}; requests := reqs; logs := lg |}) as H.
    destruct (GetConfig device _) as [[c [e|]] st1]; simpl in *; exact H. }
  split; [|split; [|split]].
  - intros [h] [h'] E. simpl in E. now subst.
  - intros ex Hex. subst made. unfold NewAwairExporter in *.
    destruct (GetConfig device _) as [[c [e|]] st1]; simpl in *;
      [discriminate|].
    inversion Hex; subst. rewrite Hmade. split; reflexivity.
  - rewrite Hops, Hmade. reflexivity.
  - exact Hops.
Qed.

(** ** Further properties *)

(** X1. Every collection sends exactly two requests, one to each resource
    of the exporter's host, in the order of the schedule, whether or not a
    fetch fails: a failed fetch does not cancel the other. *)
Theorem Collect_two_requests device sched st :
  requests (snd (Collect device sched st))
  = (requests st
     ++ match sched with
        | MetricsFirst =>
          [metrics_uri (hostname (self st)); config_uri (hostname (self st))]
        | ConfigFirst =>
          [config_uri (hostname (self st)); metrics_uri (hostname (self st))]
        end)%list.
Proof.
  unfold Collect, fetch_both, bind, ret. destruct sched.
  - pose proof (fetch_values_state device (Some zero_AwairValues) st) as H1.
    destruct (fetch_values device _ st) as [[v e1] st1]. cbn [snd] in H1.
    pose proof (fetch_config_state device (Some zero_ConfigResponse) st1) as H2.
    destruct (fetch_config device _ st1) as [[c e2] st2]. cbn [snd] in H2.
    cbn [snd]. rewrite H2, H1. cbn [requests self].
    now rewrite <- app_assoc.
  - pose proof (fetch_config_state device (Some zero_ConfigResponse) st) as H1.
    destruct (fetch_config device _ st) as [[c e1] st1]. cbn [snd] in H1.
    pose proof (fetch_values_state device (Some zero_AwairValues) st1) as H2.
    destruct (fetch_values device _ st1) as [[v e2] st2]. cbn [snd] in H2.
    cbn [snd]. rewrite H2, H1. cbn [requests self].
    now rewrite <- app_assoc.
Qed.

(** X2. [GetConfig] sends one GET, to [http://<host>/settings/config/data],
    and returns a value or an error, never both: the error of the transport,
    of reading the body, of its syntax or of its shape, or else the body
    decoded into the configuration record. *)
Theorem GetConfig_single_attempt device st :
  let uri :=
    ("http://" ++ hostname (self st) ++ "/settings/config/data")%string in
  let got := GetConfig device st in
  requests (snd got) = (requests st ++ [uri])%list
  /\ (fst (fst got) = None <-> snd (fst got) <> None)
  /\ match device (requests st) uri with
     | Refuses d => snd (fst got) = Some (UrlError d)
     | Responds r =>
       match Body r with
       | Broken d => snd (fst got) = Some (ReadError d)
       | Bytes data =>
         match parse data with
         | None => snd (fst got) = Some SyntaxError
         | Some j =>
           let decoded :=
             decode_struct ConfigResponse_fields j zero_ConfigResponse in
           snd (fst got) = snd decoded
           /\ (snd decoded = None -> fst (fst got) = Some (fst decoded))
         end
       end
     end.
Proof.
  intros uri got. subst got.
  rewrite GetConfig_state, GetConfig_result.
  fold (config_uri (hostname (self st))) in uri.
  subst uri. cbn [requests]. split; [reflexivity|].
  destruct (device _ _) as [r|d]; cbn [fst snd].
  2: { split; [|reflexivity]. split; [discriminate | reflexivity]. }
  destruct (Body r) as [data|d]; cbn [fst snd].
  2: { split; [|reflexivity]. split; [discriminate | reflexivity]. }
  unfold Unmarshal. destruct (parse data) as [j|]; cbn [fst snd].
  2: { split; [|reflexivity]. split; [discriminate | reflexivity]. }
  destruct (decode_struct _ j _) as [v [e|]]; cbn [fst snd].
  - split; [|split; [reflexivity | discriminate]].
    split; [discriminate | reflexivity].
  - split; [|split; reflexivity].
    split; [discriminate | congruence].
Qed.

(** X3. The strings of a fetched configuration that [Collect] uses as label
    values are valid UTF-8, whatever bytes the device sent: no statement of
    the emission phase can panic on its label values. *)
Theorem fetched_labels_valid device st :
  forall c e, fst (GetConfig device st) = (Some c, e) ->
  ValidString (DeviceUUID c) = true
  /\ ValidString (FirmwareVersion c) = true
  /\ ValidString (Itoa (VocFeatureSet c)) = true.
Proof.
  intros c e H. destruct (GetConfig_labels device st c e H) as [H1 H2].
  repeat split; apply WellFormed_valid; try assumption.
  apply WellFormed_Itoa.
Qed.

(** The labels of X3 at a device that serves the sample configuration. *)
Lemma fetched_labels_valid_witness :
  fst (GetConfig healthy fresh) = (Some sample_config, None)
  /\ ValidString (DeviceUUID sample_config) = true
  /\ ValidString (FirmwareVersion sample_config) = true
  /\ ValidString (Itoa (VocFeatureSet sample_config)) = true.
Proof.
  assert (H : fst (GetConfig healthy fresh) = (Some sample_config, None))
    by (vm_compute; reflexivity).
  split; [exact H|].
  apply (fetched_labels_valid healthy fresh sample_config None H).
Defined.

Import more.

(** The two ways a collection ends. *)
Lemma Collect_cases device sched st :
  (exists v c,
     labels_ok c
     /\ fetched device sched st = ((Some v, None), (Some c, None))
     /\ fst (Collect device sched st)
        = {| sent := snapshot v c; panicked := None |})
  \/ ((readings_err device sched st <> None
       \/ config_err device sched st <> None)
      /\ fst (Collect device sched st)
         = {| sent := []; panicked := Some NilDereference |}).
Proof.
  rewrite Collect_emit. unfold readings_err, config_err.
  destruct (fetched_outcomes device sched st) as [Hv Hc].
  destruct (fetched device sched st) as [rv rc]. cbn [fst snd] in *.
  destruct Hv as [[v Ev]|[e Ev]], Hc as [[c [Ec Hl]]|[e' Ec]]; subst;
    cbn [fst snd].
  - left. exists v, c. rewrite emit_both by exact Hl. auto.
  - right. rewrite emit_nil by (now right). split; [right; discriminate|].
    reflexivity.
  - right. rewrite emit_nil by (now left). split; [left; discriminate|].
    reflexivity.
  - right. rewrite emit_nil by (now left). split; [left; discriminate|].
    reflexivity.
Qed.

(** X4. A collection is all or nothing: either it sends all fifteen
    observations and does not panic, or it panics on a nil pointer before
    it has sent anything. It never sends a part of a snapshot and never
    raises another panic. *)
Theorem Collect_all_or_nothing device sched st :
  (panicked (fst (Collect device sched st)) = None
   /\ List.length (sent (fst (Collect device sched st))) = 15%nat)
  \/ (panicked (fst (Collect device sched st)) = Some NilDereference
      /\ sent (fst (Collect device sched st)) = []).
Proof.
  destruct (Collect_cases device sched st) as [(v & c & _ & _ & E)|[_ E]];
    rewrite E; [left | right]; split; reflexivity.
Qed.

(** What a completed collection has sent is the snapshot of two records
    whose label strings are well formed. *)
Lemma Collect_completed device sched st :
  panicked (fst (Collect device sched st)) = None ->
  exists v c,
    labels_ok c
    /\ fetched device sched st = ((Some v, None), (Some c, None))
    /\ sent (fst (Collect device sched st)) = snapshot v c.
Proof.
  destruct (Collect_cases device sched st) as [(v & c & Hl & Ef & E)|[_ E]];
    rewrite E; cbn [panicked sent]; [|discriminate].
  intros _. exists v, c. auto.
Qed.

(** X5. What [Collect] sends agrees with what [Describe] announces: in a
    completed collection the descriptors of the metrics sent are the
    descriptors [Describe] sends, in the same order, and every metric has as
    many label values as its descriptor has label names. *)
Theorem Collect_matches_Describe device sched st :
  panicked (fst (Collect device sched st)) = None ->
  map desc (sent (fst (Collect device sched st))) = fst (Describe st)
  /\ Forall (fun m => List.length (labelValues m)
                      = List.length (variableLabels (desc m)))
       (sent (fst (Collect device sched st))).
Proof.
  intros H. destruct (Collect_completed device sched st H) as (v & c & _ & _ & E).
  rewrite E. split; [reflexivity|].
  unfold snapshot. repeat constructor.
Qed.

(** The agreement of X5 at a device that serves both resources. *)
Lemma Collect_matches_Describe_witness :
  panicked (fst (Collect healthy MetricsFirst fresh)) = None
  /\ map desc (sent (fst (Collect healthy MetricsFirst fresh)))
     = fst (Describe fresh).
Proof.
  assert (H : panicked (fst (Collect healthy MetricsFirst fresh)) = None)
    by (vm_compute; reflexivity).
  split; [exact H|].
  apply (Collect_matches_Describe healthy MetricsFirst fresh H).
Defined.

(** X6. No two observations of a collection have the same metric name, and
    every name starts with the namespace [awair]. *)
Theorem Collect_names_distinct device sched st :
  NoDup (map (fun m => fqName (desc m))
           (sent (fst (Collect device sched st))))
  /\ Forall (fun m => prefix "awair_" (fqName (desc m)) = true)
       (sent (fst (Collect device sched st))).
Proof.
  destruct (Collect_cases device sched st) as [(v & c & _ & _ & E)|[_ E]];
    rewrite E; cbn [sent].
  - split.
    + unfold snapshot. cbn [map observation desc].
      repeat (constructor; [vm_compute; intuition discriminate|]).
      constructor.
    + unfold snapshot. repeat constructor.
  - split; constructor.
Qed.

(** *** From a member of the body to a metric *)

Lemma key_matches_other a b k :
  key_matches a k = true -> key_matches b k = key_matches b a.
Proof.
  unfold key_matches.
  destruct (foldName 0 a) as [x|]; [|discriminate].
  destruct (foldName 0 k) as [y|]; [|discriminate].
  intros H. apply String.eqb_eq in H. subst y. reflexivity.
Qed.

Ltac decide_keys H :=
  rewrite ?(fun b => key_matches_other _ b _ H);
  repeat match goal with
  | |- context [key_matches ?a ?b] =>
    let v := eval vm_compute in (key_matches a b) in
    change (key_matches a b) with v
  end;
  cbv iota.

Lemma lookup_last_None name ms :
  lookup_last name ms = None -> missing name ms.
Proof.
  induction ms as [|[k v] ms IH]; simpl; intros H k' v' Hin.
  - contradiction.
  - destruct (lookup_last name ms) as [w|]; [discriminate|].
    destruct (key_matches name k) eqn:K; [discriminate|].
    destruct Hin as [E|Hin].
    + inversion E; subst. exact K.
    + apply (IH eq_refl k' v' Hin).
Qed.

(** The field [get] holds what the last member that selects it stores,
    when the decoders of the other fields leave the field alone. *)
Lemma decode_members_last {T A : Type} (get : T -> A) (name : string)
  (fs : fields T) (v : json.value) (x : A) :
  Forall (fun nd => fst nd = name
                    \/ forall v t, get (fst (snd nd v t)) = get t) fs ->
  (forall k, key_matches name k = true ->
     exists dec, find_field fs k = Some dec
                 /\ forall t, get (fst (dec v t)) = x) ->
  forall ms t, lookup_last name ms = Some v ->
  get (fst (decode_members fs ms t)) = x.
Proof.
  intros Hsep Hhit. induction ms as [|[k v0] ms IH]; intros t; simpl.
  - discriminate.
  - destruct (lookup_last name ms) as [w|] eqn:L.
    + intros E. inversion E; subst w.
      destruct (match find_field fs k with
                | Some d => d v0 t
                | None => (t, None)
                end) as [t1 e1].
      specialize (IH t1 eq_refl).
      destruct (decode_members fs ms t1) as [t2 e2]. exact IH.
    + destruct (key_matches name k) eqn:K; [|discriminate].
      intros E. inversion E; subst v0.
      destruct (Hhit k K) as (dec & F & Hdec). rewrite F.
      specialize (Hdec t). destruct (dec v t) as [t1 e1]. simpl in Hdec.
      pose proof (decode_members_missing get name fs Hsep ms t1
                    (lookup_last_None name ms L)) as Hm.
      destruct (decode_members fs ms t1) as [t2 e2]. simpl in *. congruence.
Qed.

Lemma AwairValues_fields_hit key get lit x :
  In (key, get) AwairValues_getters ->
  ParseFloat lit = Some x ->
  forall k, key_matches key k = true ->
  exists dec, find_field AwairValues_fields k = Some dec
              /\ forall t, get (fst (dec (Number lit) t)) = x.
Proof.
  intros Hin Hp k Hk. unfold AwairValues_getters in Hin. cbn [In] in Hin.
  repeat (destruct Hin as [Hin|Hin];
    [inversion Hin; subst; clear Hin;
     eexists; split;
     [unfold AwairValues_fields; cbn [find_field]; decide_keys Hk; reflexivity
     |intros t; unfold into, as_float64; rewrite Hp; reflexivity]|]).
  contradiction.
Qed.



(** What a successful fetch returns is the body decoded into the zero
    record. *)
Lemma GetMetrics_decoded device st r data ms v e :
  device (requests st) (metrics_uri (hostname (self st))) = Responds r ->
  Body r = Bytes data ->
  parse data = Some (Object ms) ->
  fst (GetMetrics device st) = (Some v, e) ->
  v = fst (decode_members AwairValues_fields ms zero_AwairValues).
Proof.
  intros Hd Hb Hp. rewrite GetMetrics_result, Hd, Hb.
  unfold Unmarshal. rewrite Hp. cbn [decode_struct].
  destruct (decode_members _ ms _) as [v' [e'|]]; intros E; inversion E.
  reflexivity.
Qed.


(** X7. Each reading reaches its own gauge: when the readings body is an
    object, the gauge of a field reports the number of the last member
    whose key selects that field ([humid] feeds [awair_humidity],
    [abs_humid] feeds [awair_absolute_humidity], [pm10_est] feeds
    [awair_pm10], the others keep their names), labelled with the fetched
    device identifier. *)
Theorem reading_reaches_its_gauge device sched st key get d r data ms lit x :
  In (key, get, d) gauges ->
  (forall h, device h (metrics_uri (hostname (self st))) = Responds r) ->
  Body r = Bytes data ->
  parse data = Some (Object ms) ->
  lookup_last key ms = Some (Number lit) ->
  ParseFloat lit = Some x ->
  panicked (fst (Collect device sched st)) = None ->
  In (key, fqName d)
    [ ("score", "awair_score"); ("dew_point", "awair_dew_point");
      ("temp", "awair_temp"); ("humid", "awair_humidity");
      ("abs_humid", "awair_absolute_humidity"); ("co2", "awair_co2");
      ("co2_est", "awair_co2_est");
      ("co2_est_baseline", "awair_co2_est_baseline");
      ("voc", "awair_voc"); ("voc_baseline", "awair_voc_baseline");
      ("voc_h2_raw", "awair_voc_h2_raw");
      ("voc_ethanol_raw", "awair_voc_ethanol_raw");
      ("pm25", "awair_pm25"); ("pm10_est", "awair_pm10") ]
  /\ exists c,
       snd (fetched device sched st) = (Some c, None)
       /\ In (observation d x [DeviceUUID c])
            (sent (fst (Collect device sched st))).
Proof.
  intros Hin Hd Hb Hp Hl Hx Hok.
  destruct (Collect_completed device sched st Hok) as (v & c & _ & Ef & Es).
  destruct (fetched_results device sched st) as (st1 & st2 & E1 & _ & E).
  rewrite Ef in E. inversion E as [[Ev Ec]].
  assert (Hv : v = fst (decode_members AwairValues_fields ms
                          zero_AwairValues)).
  { apply (GetMetrics_decoded device st1 r data ms v None);
      [rewrite E1; apply Hd | exact Hb | exact Hp | congruence]. }
  assert (Hg : In (key, get) AwairValues_getters
               -> get v = x).
  { intros Hg. rewrite Hv.
    pose proof AwairValues_fields_separate as Hs.
    rewrite Forall_forall in Hs. specialize (Hs _ Hg). cbn [fst snd] in Hs.
    apply (decode_members_last get key _ (Number lit) x Hs
             (AwairValues_fields_hit key get lit x Hg Hx) ms _ Hl). }
  rewrite Es, Ef. cbn [snd].
  unfold gauges in Hin. cbn [In] in Hin.
  repeat (destruct Hin as [Hin|Hin];
    [inversion Hin; subst key get d; clear Hin;
     split; [cbn; tauto|];
     exists c; split; [reflexivity|];
     rewrite <- Hg by (cbn; tauto); cbn; tauto|]).
  contradiction.
Qed.

(** The humidity of the sample body at its gauge. *)
Lemma reading_reaches_its_gauge_witness :
  exists c,
    snd (fetched healthy MetricsFirst fresh) = (Some c, None)
    /\ In (observation humidity (Humidity sample_readings) [DeviceUUID c])
         (sent (fst (Collect healthy MetricsFirst fresh))).
Proof.
  refine (proj2 (reading_reaches_its_gauge healthy MetricsFirst fresh
            "humid" Humidity humidity
            {| StatusCode := 200; Body := Bytes readings_body |}
            readings_body
            (match parse readings_body with
             | Some (Object ms) => ms
             | _ => []
             end)
            (Decimal false "40" "2" None) _ _ _ _ _ _ _ _)).
  - cbn. tauto.
  - intros h. reflexivity.
  - reflexivity.
  - vm_compute. reflexivity.
  - vm_compute. reflexivity.
  - vm_compute. reflexivity.
  - vm_compute. reflexivity.
Defined.



(** *** Which bodies the readings decoder refuses *)

Lemma find_field_None {T : Type} (fs : fields T) k :
  find_field fs k = None <-> selects_one (map fst fs) k = false.
Proof.
  unfold selects_one. induction fs as [|[name d] fs IH]; simpl.
  - tauto.
  - destruct (key_matches name k); simpl; [split; discriminate | exact IH].
Qed.

Lemma AwairValues_decoders_refuse :
  Forall (fun nd => forall v (t : AwairValues),
            snd (snd nd v t)
            = if not_a_reading v then Some UnmarshalTypeError else None)
    AwairValues_fields.
Proof.
  unfold AwairValues_fields.
  repeat (apply Forall_cons; [|]); try apply Forall_nil;
  intros v t; cbn [snd]; unfold into, as_float64, not_a_reading;
  destruct v; try reflexivity;
  match goal with |- context [ParseFloat ?d] => destruct (ParseFloat d) end;
  reflexivity.
Qed.

Lemma decode_members_refused ms : forall t,
  snd (decode_members AwairValues_fields ms t)
  = if existsb refused_reading ms then Some UnmarshalTypeError else None.
Proof.
  induction ms as [|[k v] ms IH]; intros t; cbn [decode_members existsb];
    [reflexivity|].
  unfold refused_reading at 1. cbn [fst snd].
  destruct (find_field AwairValues_fields k) as [dec|] eqn:F.
  - assert (Hs : selects_one (map fst AwairValues_getters) k = true).
    { destruct (selects_one (map fst AwairValues_getters) k) eqn:S;
        [reflexivity|].
      apply (find_field_None AwairValues_fields) in S. congruence. }
    rewrite Hs. cbn [andb].
    destruct (find_field_In _ _ _ F) as [name Hin].
    pose proof AwairValues_decoders_refuse as Hr.
    rewrite Forall_forall in Hr. specialize (Hr _ Hin v t). cbn [snd] in Hr.
    destruct (dec v t) as [t1 e1]. cbn [snd] in Hr.
    specialize (IH t1). destruct (decode_members _ ms t1) as [t2 e2].
    cbn [snd] in *. rewrite Hr, IH.
    destruct (not_a_reading v); reflexivity.
  - apply (find_field_None AwairValues_fields) in F.
    change (map fst AwairValues_fields) with (map fst AwairValues_getters) in F.
    rewrite F. cbn [andb orb].
    specialize (IH t). destruct (decode_members _ ms t) as [t2 e2].
    exact IH.
Qed.

(** X9. Which readings bodies are refused: when the body is an object,
    [GetMetrics] fails, with a type error, exactly when some member whose
    key selects one of the fourteen fields has a value that is neither
    [null] nor a number in the range of [float64]; otherwise it returns the
    decoded record. Members with other keys are never a reason to fail. *)
Theorem GetMetrics_refuses_mistyped device st r data ms :
  device (requests st) (metrics_uri (hostname (self st))) = Responds r ->
  Body r = Bytes data ->
  parse data = Some (Object ms) ->
  fst (GetMetrics device st)
  = if existsb refused_reading ms
    then (None, Some UnmarshalTypeError)
    else (Some (fst (decode_members AwairValues_fields ms zero_AwairValues)),
          None).
Proof.
  intros Hd Hb Hp. rewrite GetMetrics_result, Hd, Hb.
  unfold Unmarshal. rewrite Hp. cbn [decode_struct].
  pose proof (decode_members_refused ms zero_AwairValues) as H.
  destruct (decode_members _ ms _) as [v e]. cbn [fst snd] in *. subst e.
  destruct (existsb refused_reading ms); reflexivity.
Qed.

(** The refusal of X9 at a device that sends the score as a string. *)
Lemma GetMetrics_refuses_mistyped_witness :
  fst (GetMetrics mistyped fresh) = (None, Some UnmarshalTypeError).
Proof.
  refine (eq_trans
    (GetMetrics_refuses_mistyped mistyped fresh
       {| StatusCode := 200;
          Body := Bytes (json_text "{'score':'85','temp':21.5}") |}
       (json_text "{'score':'85','temp':21.5}")
       (match parse (json_text "{'score':'85','temp':21.5}") with
        | Some (Object ms) => ms
        | _ => []
        end) _ _ _) _).
  - reflexivity.
  - reflexivity.
  - vm_compute. reflexivity.
  - vm_compute. reflexivity.
Defined.

(** *** What a collection does not depend on *)

(** X11. Of the configuration, a collection uses the device identifier,
    the firmware version and the feature set, and nothing else: two
    collections with the same readings whose configurations agree on these
    three fields send the same metrics, whatever the configurations say
    about the network, the time zone, the display or the LED. *)
Theorem Collect_uses_three_config_fields
  device1 device2 sched1 sched2 st1 st2 rv c1 c2 :
  fetched device1 sched1 st1 = (rv, (Some c1, None)) ->
  fetched device2 sched2 st2 = (rv, (Some c2, None)) ->
  DeviceUUID c1 = DeviceUUID c2 ->
  FirmwareVersion c1 = FirmwareVersion c2 ->
  VocFeatureSet c1 = VocFeatureSet c2 ->
  fst (Collect device1 sched1 st1) = fst (Collect device2 sched2 st2).
Proof.
  intros E1 E2 H1 H2 H3. rewrite !Collect_emit, E1, E2. cbn [fst snd].
  destruct (fst rv) as [v|]; [|reflexivity].
  unfold statements. cbn [emit]. unfold gauge, device_info. cbn [deref].
  rewrite H1, H2, H3. reflexivity.
Qed.

(** The collections of X11 at two devices whose configurations differ in
    their network identity. *)
Lemma Collect_uses_three_config_fields_witness :
  WifiMAC sample_config <> WifiMAC verbose_config
  /\ fst (Collect healthy MetricsFirst fresh)
     = fst (Collect verbose MetricsFirst fresh).
Proof.
  split; [vm_compute; discriminate|].
  apply (Collect_uses_three_config_fields healthy verbose
           MetricsFirst MetricsFirst fresh fresh
           (Some sample_readings, None) sample_config verbose_config);
    vm_compute; reflexivity.
Defined.

Lemma GetMetrics_stable device st st' :
  stable device (metrics_uri (hostname (self st))) ->
  self st' = self st ->
  fst (GetMetrics device st') = fst (GetMetrics device st).
Proof.
  intros Hs E. rewrite !GetMetrics_result, E.
  now rewrite (Hs (requests st') (requests st)).
Qed.

Lemma GetConfig_stable device st st' :
  stable device (config_uri (hostname (self st))) ->
  self st' = self st ->
  fst (GetConfig device st') = fst (GetConfig device st).
Proof.
  intros Hs E. rewrite !GetConfig_result, E.
  now rewrite (Hs (requests st') (requests st)).
Qed.

Lemma run_ops_self device ops : forall st,
  self (run_ops device ops st) = self st.
Proof.
  unfold run_ops. induction ops as [|op ops' IH]; intros st; simpl.
  - reflexivity.
  - rewrite IH. destruct op; simpl.
    + apply keeps_self_Describe.
    + apply keeps_self_Collect.
    + apply keeps_self_GetMetrics.
    + apply keeps_self_GetConfig.
Qed.

(** X13. What construction checks stays checked: when the answer of the
    device for the configuration resource does not depend on the requests
    made before, an exporter that [NewAwairExporter] returned never fails to
    fetch its configuration afterwards, so a later collection, after any
    operations, completes exactly when its readings fetch succeeds. *)
Theorem constructed_config_stays_fetchable
  device host reqs lg ex st0 ops sched :
  stable device (config_uri host) ->
  NewAwairExporter device host reqs lg = ((Some ex, None), st0) ->
  config_err device sched (run_ops device ops st0) = None
  /\ (panicked (fst (Collect device sched (run_ops device ops st0))) = None
      <-> readings_err device sched (run_ops device ops st0) = None).
Proof.
  intros Hs Hnew.
  set (start := {| self := {| hostname := host |}; requests := reqs;
                   logs := lg |}).
  assert (Hc : exists c, fst (GetConfig device start) = (Some c, None)
                         /\ self st0 = {| hostname := host |}).
  { unfold NewAwairExporter in Hnew. fold start in Hnew.
    pose proof (GetConfig_value_xor_error device start) as Hx.
    pose proof (keeps_self_GetConfig device start) as Hk.
    destruct (GetConfig device start) as [[c e] s1]. cbn [fst snd] in *.
    destruct e as [e|]; [inversion Hnew|].
    destruct Hx as [[c' E]|[e' E]]; [|discriminate].
    exists c'. split; [exact E|].
    cbn in Hnew. inversion Hnew; subst. exact Hk. }
  destruct Hc as (c & Ec & Hself).
  set (st := run_ops device ops st0).
  assert (Est : self st = {| hostname := host |}).
  { subst st. now rewrite run_ops_self. }
  assert (Hcfg : snd (fetched device sched st) = (Some c, None)).
  { destruct (fetched_results device sched st) as (s1 & s2 & _ & E2 & E).
    rewrite E. cbn [snd]. rewrite <- Ec.
    apply GetConfig_stable; [exact Hs | now rewrite E2, Est]. }
  assert (Herr : config_err device sched st = None).
  { unfold config_err. now rewrite Hcfg. }
  split; [exact Herr|].
  destruct (Collect_cases device sched st) as [(v & c' & _ & Ef & E)|[Hf E]];
    rewrite E; cbn [panicked].
  - unfold readings_err. rewrite Ef. cbn. tauto.
  - destruct Hf as [Hf|Hf]; [|congruence].
    split; [discriminate | intros H; congruence].
Qed.

(** The exporter of X13 at a device that serves both resources, after a
    first collection. *)
Lemma constructed_config_stays_fetchable_witness :
  config_err healthy MetricsFirst
    (run_ops healthy [OpCollect ConfigFirst]
       (snd (NewAwairExporter healthy "awair" [] [])))
  = None.
Proof.
  refine (proj1 (constructed_config_stays_fetchable healthy "awair" [] []
            {| hostname := "awair" |}
            (snd (NewAwairExporter healthy "awair" [] []))
            [OpCollect ConfigFirst] MetricsFirst _ _)).
  - intros h h'. reflexivity.
  - vm_compute. reflexivity.
Defined.

(** *** Which bodies the configuration decoder refuses *)

Lemma decode_members_errors {T : Type} (fs : fields T)
  (bad : string * json.value -> bool) :
  (forall k v t,
     snd (match find_field fs k with
          | Some d => d v t
          | None => (t, None)
          end)
     = if bad (k, v) then Some UnmarshalTypeError else None) ->
  forall ms t,
    snd (decode_members fs ms t)
    = if existsb bad ms then Some UnmarshalTypeError else None.
Proof.
  intros Hm. induction ms as [|[k v] ms IH]; intros t;
    cbn [decode_members existsb]; [reflexivity|].
  specialize (Hm k v t).
  destruct (match find_field fs k with
            | Some d => d v t
            | None => (t, None)
            end) as [t1 e1].
  specialize (IH t1). destruct (decode_members fs ms t1) as [t2 e2].
  cbn [snd] in *. rewrite Hm, IH. destruct (bad (k, v)); reflexivity.
Qed.

Ltac split_key k finish :=
  repeat match goal with
  | |- context [key_matches ?n k] =>
    let K := fresh "K" in
    destruct (key_matches n k) eqn:K;
    [ decide_keys K; cbn [andb orb]; finish |]
  end.

Lemma led_member_refused k v (t : LEDSettings) :
  snd (match find_field LEDSettings_fields k with
       | Some d => d v t
       | None => (t, None)
       end)
  = if refused_led (k, v) then Some UnmarshalTypeError else None.
Proof.
  unfold LEDSettings_fields, refused_led. cbn [find_field fst snd].
  split_key k ltac:(
    unfold into, as_string, as_int, not_a_string, not_an_int;
    destruct v; try reflexivity;
    match goal with |- context [ParseInt ?d] => destruct (ParseInt d) end;
    reflexivity).
  reflexivity.
Qed.

Lemma decode_LED_refused v (c : ConfigResponse) :
  snd (decode_LED v c)
  = if not_led v then Some UnmarshalTypeError else None.
Proof.
  unfold decode_LED, decode_struct, not_led.
  destruct v; try reflexivity.
  pose proof (decode_members_errors LEDSettings_fields refused_led
                led_member_refused members (LED c)) as H.
  destruct (decode_members LEDSettings_fields members (LED c)) as [l e].
  exact H.
Qed.

Lemma config_member_refused k v (t : ConfigResponse) :
  snd (match find_field ConfigResponse_fields k with
       | Some d => d v t
       | None => (t, None)
       end)
  = if refused_config (k, v) then Some UnmarshalTypeError else None.
Proof.
  unfold ConfigResponse_fields, refused_config, selects_one,
    ConfigResponse_getters.
  cbn [find_field fst snd map existsb].
  split_key k ltac:(
    rewrite ?decode_LED_refused;
    unfold into, as_string, as_int, not_a_string, not_an_int, not_led;
    destruct v; cbn [orb andb snd];
    repeat match goal with
    | |- context [ParseInt ?d] => destruct (ParseInt d)
    | |- context [existsb ?f ?l] => destruct (existsb f l)
    end;
    cbn [orb andb snd]; reflexivity).
  reflexivity.
Qed.

(** X14. Which configuration bodies are refused: when the body is an
    object, [GetConfig] fails, with a type error, exactly when some member
    selects a string field with a value that is neither a string nor
    [null], or selects [voc_feature_set] with a value that is neither [null]
    nor an integer literal in the 64-bit range (a number with a fraction or
    an exponent is refused), or selects [led] with a value that is neither
    [null] nor an object whose [Mode] and [Brightness] are of their types;
    otherwise it returns the decoded record. *)
Theorem GetConfig_refuses_mistyped device st r data ms :
  device (requests st) (config_uri (hostname (self st))) = Responds r ->
  Body r = Bytes data ->
  parse data = Some (Object ms) ->
  fst (GetConfig device st)
  = if existsb refused_config ms
    then (None, Some UnmarshalTypeError)
    else (Some (fst (decode_members ConfigResponse_fields ms
                       zero_ConfigResponse)),
          None).
Proof.
  intros Hd Hb Hp. rewrite GetConfig_result, Hd, Hb.
  unfold Unmarshal. rewrite Hp. cbn [decode_struct].
  pose proof (decode_members_errors ConfigResponse_fields refused_config
                config_member_refused ms zero_ConfigResponse) as H.
  destruct (decode_members _ ms _) as [v e]. cbn [fst snd] in *. subst e.
  destruct (existsb refused_config ms); reflexivity.
Qed.

(** The refusal of X14 at a device that sends the feature set as [3.0]. *)
Lemma GetConfig_refuses_mistyped_witness :
  fst (GetConfig fractional fresh) = (None, Some UnmarshalTypeError).
Proof.
  refine (eq_trans
    (GetConfig_refuses_mistyped fractional fresh
       {| StatusCode := 200;
          Body := Bytes (json_text
                    "{'device_uuid':'awair-123','voc_feature_set':3.0}") |}
       (json_text "{'device_uuid':'awair-123','voc_feature_set':3.0}")
       (match parse (json_text
                 "{'device_uuid':'awair-123','voc_feature_set':3.0}") with
        | Some (Object ms) => ms
        | _ => []
        end) _ _ _) _).
  - reflexivity.
  - reflexivity.
  - vm_compute. reflexivity.
  - vm_compute. reflexivity.
Defined.

(** *** What a collection has written to the log when it emits *)

Lemma fetch_values_logs device x st :
  logs (snd (fetch_values device x st))
  = (logs st
     ++ [(DebugLevel, "Attempting to retrieve metrics from Awair device.")]
     ++ match snd (fst (GetMetrics device st)) with
        | Some _ => [(ErrorLevel, "Error retrieving Metrics from device")]
        | None => []
        end)%list.
Proof.
  unfold fetch_values, bind, log, ret.
  pose proof (GetMetrics_state device st) as Hs.
  destruct (GetMetrics device st) as [[v [e|]] st1]; cbn [fst snd] in *;
    rewrite Hs; cbn [logs]; rewrite <- ?app_assoc, ?app_nil_r; reflexivity.
Qed.

Lemma fetch_config_logs device x st :
  logs (snd (fetch_config device x st))
  = (logs st
     ++ [(DebugLevel, "Attempting to retrieve config from Awair device.")]
     ++ match snd (fst (GetConfig device st)) with
        | Some _ => [(ErrorLevel, "Error retrieving Metrics from device")]
        | None => []
        end
     ++ [(DebugLevel, "Config successfully retrieved")])%list.
Proof.
  unfold fetch_config, bind, log, ret.
  pose proof (GetConfig_state device st) as Hs.
  destruct (GetConfig device st) as [[v [e|]] st1]; cbn [fst snd] in *;
    rewrite Hs; cbn [logs]; rewrite <- !app_assoc; reflexivity.
Qed.

(** X10. By the time a collection starts to emit, every failed fetch has
    been logged once at error level, with the same message for both
    resources, and nothing else has been logged at that level; the debug
    line that reports the configuration as retrieved has been written
    whether its fetch failed or not. (The like line for the readings is
    written after the barrier, by [after_Done], and nothing is said of
    it.) *)
Theorem Collect_logs_each_failure device sched st :
  filter is_error_line (logs (snd (Collect device sched st)))
  = (filter is_error_line (logs st)
     ++ repeat (ErrorLevel, "Error retrieving Metrics from device")
          (failures device sched st))%list
  /\ In (DebugLevel, "Config successfully retrieved")
       (logs (snd (Collect device sched st))).
Proof.
  unfold failures, readings_err, config_err, fetched.
  unfold Collect, fetch_both, bind, ret. destruct sched.
  - pose proof (fetch_values_logs device (Some zero_AwairValues) st) as L1.
    pose proof (fetch_values_result device (Some zero_AwairValues) st) as R1.
    destruct (fetch_values device _ st) as [[v e1] st1].
    cbn [fst snd] in L1, R1. rewrite <- R1 in L1. cbn [fst snd] in L1.
    pose proof (fetch_config_logs device (Some zero_ConfigResponse) st1) as L2.
    pose proof (fetch_config_result device (Some zero_ConfigResponse) st1) as R2.
    destruct (fetch_config device _ st1) as [[c e2] st2].
    cbn [fst snd] in L2, R2. rewrite <- R2 in L2. cbn [fst snd] in L2.
    cbn [fst snd]. rewrite L2, L1.
    split.
    + rewrite !filter_app. destruct e1, e2; cbn;
        rewrite ?app_nil_r, <- ?app_assoc; reflexivity.
    + rewrite !in_app_iff. cbn. tauto.
  - pose proof (fetch_config_logs device (Some zero_ConfigResponse) st) as L1.
    pose proof (fetch_config_result device (Some zero_ConfigResponse) st) as R1.
    destruct (fetch_config device _ st) as [[c e1] st1].
    cbn [fst snd] in L1, R1. rewrite <- R1 in L1. cbn [fst snd] in L1.
    pose proof (fetch_values_logs device (Some zero_AwairValues) st1) as L2.
    pose proof (fetch_values_result device (Some zero_AwairValues) st1) as R2.
    destruct (fetch_values device _ st1) as [[v e2] st2].
    cbn [fst snd] in L2, R2. rewrite <- R2 in L2. cbn [fst snd] in L2.
    cbn [fst snd]. rewrite L2, L1.
    split.
    + rewrite !filter_app. destruct e1, e2; cbn;
        rewrite ?app_nil_r, <- ?app_assoc; reflexivity.
    + rewrite !in_app_iff. cbn. tauto.
Qed.

(** *** The order of the two goroutines *)

(** X12. When the answers of the device for the two resources are the
    same whichever of the two is requested first, the order in which the
    two goroutines run does not matter: both schedules fetch the same
    records and send the same metrics. *)
Theorem Collect_schedule_independent device st :
  order_independent device st ->
  fetched device MetricsFirst st = fetched device ConfigFirst st
  /\ fst (Collect device MetricsFirst st) = fst (Collect device ConfigFirst st).
Proof.
  intros [Hm Hc].
  assert (H1 : fetched device MetricsFirst st
               = (fst (GetMetrics device st), fst (GetConfig device st))).
  { unfold fetched, fetch_both, bind, ret.
    pose proof (fetch_values_result device (Some zero_AwairValues) st) as Rv.
    pose proof (fetch_values_state device (Some zero_AwairValues) st) as Sv.
    destruct (fetch_values device _ st) as [rv st1]. cbn [fst snd] in Rv, Sv.
    pose proof (fetch_config_result device (Some zero_ConfigResponse) st1)
      as Rc.
    destruct (fetch_config device _ st1) as [rc st2]. cbn [fst snd] in Rc.
    cbn [fst]. rewrite Rv, Rc. f_equal.
    rewrite !GetConfig_result, Sv. cbn [self requests]. now rewrite Hc. }
  assert (H2 : fetched device ConfigFirst st
               = (fst (GetMetrics device st), fst (GetConfig device st))).
  { unfold fetched, fetch_both, bind, ret.
    pose proof (fetch_config_result device (Some zero_ConfigResponse) st) as Rc.
    pose proof (fetch_config_state device (Some zero_ConfigResponse) st) as Sc.
    destruct (fetch_config device _ st) as [rc st1]. cbn [fst snd] in Rc, Sc.
    pose proof (fetch_values_result device (Some zero_AwairValues) st1) as Rv.
    destruct (fetch_values device _ st1) as [rv st2]. cbn [fst snd] in Rv.
    cbn [fst]. rewrite Rv, Rc. f_equal.
    rewrite !GetMetrics_result, Sc. cbn [self requests]. now rewrite Hm. }
  split.
  - now rewrite H1, H2.
  - now rewrite !Collect_emit, H1, H2.
Qed.

(** The two schedules of X12 at a device that answers its first two
    requests and refuses every later one. *)
Lemma Collect_schedule_independent_witness :
  order_independent warm fresh
  /\ fst (Collect warm MetricsFirst fresh) = fst (Collect warm ConfigFirst fresh).
Proof.
  assert (H : order_independent warm fresh) by (split; reflexivity).
  split; [exact H|].
  apply (proj2 (Collect_schedule_independent warm fresh H)).
Defined.

(** *** What [GetMetrics] makes of a body *)

Lemma AwairValues_fields_store key get :
  In (key, get) AwairValues_getters ->
  forall k, key_matches key k = true ->
  exists dec, find_field AwairValues_fields k = Some dec
              /\ forall v t,
                   get (fst (dec v t))
                   = match as_float64 v with
                     | Store x => x
                     | _ => get t
                     end.
Proof.
  intros Hin k Hk. unfold AwairValues_getters in Hin. cbn [In] in Hin.
  repeat (destruct Hin as [Hin|Hin];
    [inversion Hin; subst; clear Hin;
     eexists; split;
     [unfold AwairValues_fields; cbn [find_field]; decide_keys Hk; reflexivity
     |intros v t; unfold into; destruct (as_float64 v); reflexivity]|]).
  contradiction.
Qed.

Lemma selects_one_In names key k :
  In key names -> key_matches key k = true -> selects_one names k = true.
Proof.
  intros Hin Hk. unfold selects_one. apply existsb_exists.
  exists key. split; assumption.
Qed.

(** In an object none of whose members is refused, a member that selects a
    readings field and is not [null] is a number in range. *)
Lemma accepted_member key k v :
  In key (map fst AwairValues_getters) ->
  key_matches key k = true ->
  refused_reading (k, v) = false ->
  is_null v = false ->
  exists lit x, v = Number lit /\ ParseFloat lit = Some x.
Proof.
  intros Hin Hk Hr Hn. unfold refused_reading in Hr. cbn [fst snd] in Hr.
  rewrite (selects_one_In _ key k Hin Hk) in Hr. cbn [andb] in Hr.
  destruct v; try discriminate.
  unfold not_a_reading in Hr. destruct (ParseFloat d) as [x|] eqn:P;
    [|discriminate].
  exists d, x. split; [reflexivity | exact P].
Qed.

Lemma last_stored_accepted key ms w :
  In key (map fst AwairValues_getters) ->
  existsb refused_reading ms = false ->
  last_stored key ms = Some w ->
  exists lit x, w = Number lit /\ ParseFloat lit = Some x.
Proof.
  intros Hin. induction ms as [|[k v] ms IH]; cbn [last_stored existsb].
  - discriminate.
  - intros Hr Hl. apply Bool.orb_false_iff in Hr as [Hr1 Hr2].
    destruct (last_stored key ms) as [w'|].
    + inversion Hl; subst. apply IH; [exact Hr2 | reflexivity].
    + destruct (key_matches key k) eqn:K; [|discriminate].
      destruct (is_null v) eqn:N; [discriminate|].
      inversion Hl; subst. eapply accepted_member; eauto.
Qed.

(** A field of the decoded record holds the number of the last member
    that selects it and is not [null], or what it held before. *)
Lemma decoded_field key get :
  In (key, get) AwairValues_getters ->
  forall ms t,
    existsb refused_reading ms = false ->
    get (fst (decode_members AwairValues_fields ms t))
    = match last_stored key ms with
      | Some (Number lit) =>
        match ParseFloat lit with Some x => x | None => get t end
      | _ => get t
      end.
Proof.
  intros Hin.
  assert (Hname : In key (map fst AwairValues_getters))
    by (apply (in_map fst _ _ Hin)).
  pose proof AwairValues_fields_separate as Hsep.
  rewrite Forall_forall in Hsep. specialize (Hsep _ Hin).
  cbn [fst snd] in Hsep. rewrite Forall_forall in Hsep.
  induction ms as [|[k v] ms IH]; intros t;
    cbn [decode_members last_stored existsb]; [reflexivity|].
  intros Hr. apply Bool.orb_false_iff in Hr as [Hr1 Hr2].
  assert (Hhead :
    get (fst (match find_field AwairValues_fields k with
              | Some d => d v t
              | None => (t, None)
              end))
    = if key_matches key k
      then match as_float64 v with Store x => x | _ => get t end
      else get t).
  { destruct (key_matches key k) eqn:K.
    - destruct (AwairValues_fields_store key get Hin k K) as (dec & F & Hd).
      rewrite F. apply Hd.
    - destruct (find_field AwairValues_fields k) as [dec|] eqn:F;
        [|reflexivity].
      destruct (find_field_matches _ _ _ F) as (n & Hn & Hk).
      destruct (Hsep _ Hn) as [E|E].
      + cbn [fst] in E. subst n. congruence.
      + apply E. }
  destruct (match find_field AwairValues_fields k with
            | Some d => d v t
            | None => (t, None)
            end) as [t1 e1].
  cbn [fst] in Hhead.
  specialize (IH t1 Hr2).
  destruct (decode_members AwairValues_fields ms t1) as [t2 e2].
  cbn [fst] in *. rewrite IH.
  destruct (last_stored key ms) as [w|] eqn:L.
  - destruct (last_stored_accepted key ms w Hname Hr2 L)
      as (lit & x & -> & P).
    rewrite P. reflexivity.
  - rewrite Hhead. destruct (key_matches key k) eqn:K; cbn [andb];
      [|reflexivity].
    destruct (is_null v) eqn:N; cbn [negb].
    + destruct v; try discriminate. reflexivity.
    + destruct (accepted_member key k v Hname K Hr1 N) as (lit & x & -> & P).
      unfold as_float64. rewrite P. reflexivity.
Qed.

Lemma decode_readings_of ms :
  existsb refused_reading ms = false ->
  fst (decode_members AwairValues_fields ms zero_AwairValues)
  = readings_of ms.
Proof.
  intros Hr.
  assert (H : forall key get, In (key, get) AwairValues_getters ->
                get (fst (decode_members AwairValues_fields ms
                            zero_AwairValues))
                = reading_of key ms).
  { intros key get Hin. rewrite (decoded_field key get Hin ms _ Hr).
    unfold reading_of.
    assert (Hz : get zero_AwairValues = zero_float64).
    { unfold AwairValues_getters in Hin. cbn [In] in Hin.
      repeat (destruct Hin as [Hin|Hin];
              [inversion Hin; subst; reflexivity|]).
      contradiction. }
    rewrite Hz. reflexivity. }
  destruct (fst (decode_members AwairValues_fields ms zero_AwairValues))
    as [f1 f2 f3 f4 f5 f6 f7 f8 f9 f10 f11 f12 f13 f14] eqn:E.
  unfold readings_of.
  rewrite <- (H "score" Score), <- (H "dew_point" DewPoint),
    <- (H "temp" Temp), <- (H "humid" Humidity),
    <- (H "abs_humid" AbsHumidity), <- (H "co2" CO2),
    <- (H "co2_est" CO2Est), <- (H "co2_est_baseline" CO2EstBaseline),
    <- (H "voc" Voc), <- (H "voc_baseline" VocBaseline),
    <- (H "voc_h2_raw" VocH2Raw), <- (H "voc_ethanol_raw" VocEthanolRaw),
    <- (H "pm25" PM25), <- (H "pm10_est" PM10Est)
    by (cbn; tauto).
  reflexivity.
Qed.

Lemma decode_readings j :
  (let '(v, e) := decode_struct AwairValues_fields j zero_AwairValues in
   match e with
   | Some err => (None, Some err)
   | None => (Some v, None)
   end)
  = readings_result j.
Proof.
  destruct j; try reflexivity. cbn [decode_struct readings_result].
  pose proof (decode_members_refused members zero_AwairValues) as He.
  pose proof (decode_readings_of members) as Hv.
  destruct (decode_members AwairValues_fields members zero_AwairValues)
    as [v e]. cbn [fst snd] in *. subst e.
  destruct (existsb refused_reading members); [reflexivity|].
  now rewrite Hv.
Qed.

(** C6, as the spec states it, fails: bodies that do not have the shape of
    the Readings record are returned as a record of zeros, with no error.
    So are the body [null], an object with none of the fourteen keys, and
    an object whose readings are [null]. *)
Lemma GetMetrics_accepts_other_shapes :
  fst (GetMetrics null_body fresh) = (Some zero_AwairValues, None)
  /\ fst (GetMetrics other_keys fresh) = (Some zero_AwairValues, None)
  /\ fst (GetMetrics null_members fresh) = (Some zero_AwairValues, None).
Proof. repeat split; vm_compute; reflexivity. Qed.

(** C6 (amended). [GetMetrics] sends one GET, to
    [http://<host>/air-data/latest], and makes no second attempt. It returns
    a record and no error, or an error and no record. The error is that of
    the transport, or that of reading the body, or a syntax error when the
    body is no JSON text, or a type error when the text is neither an
    object nor [null] or is an object with a member that selects one of the
    fourteen fields with a value that is neither [null] nor a number in the
    range of [float64]. Every other body is decoded: [null] gives the zero
    record, and an object gives the record in which each field has the
    number of the last member that selects it and is not [null], and zero
    when there is none. Members with other keys are passed over. *)
Theorem GetMetrics_single_attempt device st :
  let uri := ("http://" ++ hostname (self st) ++ "/air-data/latest")%string in
  let got := GetMetrics device st in
  requests (snd got) = (requests st ++ [uri])%list
  /\ (fst (fst got) = None <-> snd (fst got) <> None)
  /\ fst got
     = match device (requests st) uri with
       | Refuses d => (None, Some (UrlError d))
       | Responds r =>
         match Body r with
         | Broken d => (None, Some (ReadError d))
         | Bytes data =>
           match parse data with
           | None => (None, Some SyntaxError)
           | Some (Object ms) =>
             if existsb refused_reading ms
             then (None, Some UnmarshalTypeError)
             else (Some (readings_of ms), None)
           | Some Null => (Some zero_AwairValues, None)
           | Some _ => (None, Some UnmarshalTypeError)
           end
         end
       end.
Proof.
  intros uri got. subst got.
  rewrite GetMetrics_state.
  fold (metrics_uri (hostname (self st))) in uri. subst uri.
  cbn [requests snd]. split; [reflexivity|].
  assert (E : fst (GetMetrics device st)
              = match device (requests st)
                        (metrics_uri (hostname (self st))) with
                | Refuses d => (None, Some (UrlError d))
                | Responds r =>
                  match Body r with
                  | Broken d => (None, Some (ReadError d))
                  | Bytes data =>
                    match parse data with
                    | None => (None, Some SyntaxError)
                    | Some j => readings_result j
                    end
                  end
                end).
  { rewrite GetMetrics_result.
    destruct (device _ _) as [r|d]; [|reflexivity].
    destruct (Body r) as [data|d]; [|reflexivity].
    unfold Unmarshal. destruct (parse data) as [j|]; [|reflexivity].
    apply decode_readings. }
  split.
  - destruct (GetMetrics_value_xor_error device st) as [[v Hv]|[e He]].
    + rewrite Hv. cbn. split; [discriminate | congruence].
    + rewrite He. cbn. split; [discriminate | reflexivity].
  - rewrite E.
    destruct (device _ _) as [r|d]; [|reflexivity].
    destruct (Body r) as [data|d]; [|reflexivity].
    destruct (parse data) as [[| | | | |]|]; reflexivity.
Qed.
